(** * Zammad node: generic request helpers

    A shallow embedding of
    [packages/nodes-base/nodes/Zammad/GenericFunctions.ts]:
    the request builder and executor [zammadApiRequest], the paginated
    fetcher [zammadApiRequestAllItems], [tolerateTrailingSlash] and the
    load-option helpers, followed by the properties proved about them.

    JavaScript objects used as dictionaries are finite maps from property
    names to values; numbers that the module handles (page counters, lengths,
    the item limit) are integers; promises are modelled by their settled
    result, and the host's transport by a function on an explicit world. *)

From Stdlib Require Import ZArith Lia.
From stdpp Require Import base tactics option list gmap strings.

#[local] Set Warnings "-register-all".
#[local] Open Scope Z_scope.

(* ================================================================== *)
(** * JavaScript values *)
(* ================================================================== *)

Inductive JVal : Type :=
| JUndefined
| JNull
| JBool (b : bool)
| JNum (n : Z)
| JStr (s : string)
| JArr (xs : list JVal)
| JObj (o : gmap string JVal).

(** [IDataObject] of n8n-workflow: a plain object keyed by strings. *)
Abbreviation IDataObject := (gmap string JVal).

(** [v[key]] for the two property names this module reads, ["error"] and
    ["length"].  [None] is the TypeError raised when [v] is [undefined] or
    [null]; a primitive or an array without that property yields
    [undefined]. *)
Definition getProperty (v : JVal) (key : string) : option JVal :=
  match v with
  | JUndefined | JNull => None
  | JObj o => Some (default JUndefined (o !! key))
  | JArr xs =>
      Some (if decide (key = "length") then JNum (Z.of_nat (length xs))
            else JUndefined)
  | JStr s =>
      Some (if decide (key = "length") then JNum (Z.of_nat (String.length s))
            else JUndefined)
  | JBool _ | JNum _ => Some JUndefined
  end.

(** [v[key] = x] on an object.  The only assignment of the module is
    guarded by a successful read of a string from the same property, so
    the target is an object whenever the assignment runs. *)
Definition setProperty (v : JVal) (key : string) (x : JVal) : JVal :=
  match v with
  | JObj o => JObj (<[key := x]> o)
  | _ => v
  end.

(** [v === s] for a string literal [s]. *)
Definition strictEqualsString (v : JVal) (s : string) : bool :=
  match v with
  | JStr t => String.eqb t s
  | _ => false
  end.

(** ToBoolean. *)
Definition truthy (v : JVal) : bool :=
  match v with
  | JUndefined | JNull => false
  | JBool b => b
  | JNum n => negb (n =? 0)
  | JStr s => negb (String.eqb s "")
  | JArr _ | JObj _ => true
  end.

Fixpoint characters (s : string) : list JVal :=
  match s with
  | EmptyString => []
  | String c rest => JStr (String c EmptyString) :: characters rest
  end.

(** The elements produced by the spread [...v]; [None] when [v] is not
    iterable (a TypeError). *)
Definition iterate (v : JVal) : option (list JVal) :=
  match v with
  | JArr xs => Some xs
  | JStr s => Some (characters s)
  | _ => None
  end.

(** [Array.prototype.slice(start, end)]. *)
Definition slice {A : Type} (l : list A) (start stop : Z) : list A :=
  let len := Z.of_nat (length l) in
  let k := if decide (start < 0) then Z.max (len + start) 0 else Z.min start len in
  let final := if decide (stop < 0) then Z.max (len + stop) 0 else Z.min stop len in
  take (Z.to_nat (final - k)) (drop (Z.to_nat k) l).

(* ================================================================== *)
(** * Strings *)
(* ================================================================== *)

(** [String.prototype.endsWith(search)]. *)
Definition endsWith (s search : string) : bool :=
  let size := String.length s in
  let k := String.length search in
  if decide (k ≤ size)%nat
  then String.eqb (String.substring (size - k) k s) search
  else false.

(** [String.prototype.substr(start, len)]. *)
Definition substr (s : string) (start len : Z) : string :=
  let size := Z.of_nat (String.length s) in
  let from := if decide (start < 0) then Z.max (size + start) 0 else Z.min start size in
  let span := Z.min (Z.max len 0) (size - from) in
  String.substring (Z.to_nat from) (Z.to_nat span) s.

(** [String.prototype.replace(pat, rep)] with a string pattern and a
    replacement free of [$] patterns: only the first match is replaced. *)
Definition replace (s pat rep : string) : string :=
  match String.index 0 pat s with
  | Some pos =>
      let after := (pos + String.length pat)%nat in
      String.substring 0 pos s +:+ rep
        +:+ String.substring after (String.length s - after) s
  | None => s
  end.

Definition tolerateTrailingSlash (url : string) : string :=
  if endsWith url "/"
  then substr url 0 (Z.of_nat (String.length url) - 1)
  else url.

Definition prettifyDisplayName (fieldName : string) : string :=
  replace fieldName "name" " Name".

(** [pre] and [post] surround the leftmost occurrence of [pat] in [s]. *)
Definition first_occurrence (pat s pre post : string) : Prop :=
  s = pre +:+ pat +:+ post ∧
  ∀ a b, s = a +:+ pat +:+ b → (String.length pre ≤ String.length a)%nat.

(* ================================================================== *)
(** * Records of the node *)
(* ================================================================== *)

Module Zammad.
(** Modelled from the spec: the declarations [Zammad.Credentials] and
    [Zammad.Field] of [./types], which is not among the sources.  The
    credentials are a union tagged by [authType]; the fields of both
    variants are kept side by side, and the code only reads those of the
    variant it selected. *)
Record Credentials := {
  authType : string;
  baseUrl : string;
  username : string;
  password : string;
  accessToken : string;
  allowUnauthorizedCerts : bool;
}.

Record Field := {
  name : string;
  display : string;
  object : string;
  created_by_id : Z;
}.
End Zammad.

(** The [{ name, value }] pair offered to a dropdown. *)
Record INodePropertyOptions := {
  name : string;
  value : string;
}.

Definition fieldToLoadOption (i : Zammad.Field) : INodePropertyOptions :=
  {| name := prettifyDisplayName (Zammad.display i); value := Zammad.name i |}.

(** [OptionsWithUri] of the request library, restricted to the properties
    the node sets.  An absent property is [None]. *)
Module Options.
Record t := mk {
  method : string;
  body : option IDataObject;
  qs : option IDataObject;
  uri : string;
  json : bool;
  auth : option (string * string);
  headers : option (gmap string string);
  rejectUnauthorized : option bool;
}.
End Options.

(* ================================================================== *)
(** * Building the request descriptor (lines 29-70) *)
(* ================================================================== *)

Definition withBasicAuth (credentials : Zammad.Credentials) (endpoint : string)
    (options : Options.t) : Options.t :=
  let baseUrl := tolerateTrailingSlash (Zammad.baseUrl credentials) in
  Options.mk (Options.method options) (Options.body options) (Options.qs options)
    (baseUrl +:+ "/api/v1" +:+ endpoint)
    (Options.json options)
    (Some (Zammad.username credentials, Zammad.password credentials))
    (Options.headers options)
    (Some (negb (Zammad.allowUnauthorizedCerts credentials))).

Definition withTokenAuth (credentials : Zammad.Credentials) (endpoint : string)
    (options : Options.t) : Options.t :=
  let baseUrl := tolerateTrailingSlash (Zammad.baseUrl credentials) in
  Options.mk (Options.method options) (Options.body options) (Options.qs options)
    (baseUrl +:+ "/api/v1" +:+ endpoint)
    (Options.json options)
    (Options.auth options)
    (Some {[ "Authorization" := "Token token=" +:+ Zammad.accessToken credentials ]})
    (Some (negb (Zammad.allowUnauthorizedCerts credentials))).

Definition deleteBody (options : Options.t) : Options.t :=
  Options.mk (Options.method options) None (Options.qs options)
    (Options.uri options) (Options.json options) (Options.auth options)
    (Options.headers options) (Options.rejectUnauthorized options).

Definition deleteQs (options : Options.t) : Options.t :=
  Options.mk (Options.method options) (Options.body options) None
    (Options.uri options) (Options.json options) (Options.auth options)
    (Options.headers options) (Options.rejectUnauthorized options).

(** [Object.keys(o).length]. *)
Definition keysLength (o : IDataObject) : Z := Z.of_nat (size o).

Definition buildOptions (credentials : Zammad.Credentials)
    (method endpoint : string) (body qs : IDataObject) : Options.t :=
  let options :=
    Options.mk method (Some body) (Some qs) "" true None None None in
  let options :=
    if String.eqb (Zammad.authType credentials) "basicAuth"
    then withBasicAuth credentials endpoint options
    else if String.eqb (Zammad.authType credentials) "tokenAuth"
    then withTokenAuth credentials endpoint options
    else options in
  let options :=
    if negb (truthy (JNum (keysLength body))) then deleteBody options else options in
  let options :=
    if negb (truthy (JNum (keysLength qs))) then deleteQs options else options in
  options.

(* ================================================================== *)
(** * The host context and the effects of a call *)
(* ================================================================== *)

(** The result of awaiting a promise. *)
Inductive Settled (A : Type) : Type :=
| Fulfilled (a : A)
| Rejected (error : JVal).
Arguments Fulfilled {A} a.
Arguments Rejected {A} error.

(** What a call of this module can throw. *)
Inductive Thrown (Node : Type) : Type :=
| TypeError
| NodeApiError (node : Node) (error : JVal)
| HostError (error : JVal).
Arguments TypeError {Node}.
Arguments NodeApiError {Node} node error.
Arguments HostError {Node} error.

Inductive Outcome (Node A : Type) : Type :=
| Returned (a : A)
| Threw (e : Thrown Node)
| OutOfFuel.
Arguments Returned {Node A} a.
Arguments Threw {Node A} e.
Arguments OutOfFuel {Node A}.

(** [this]: the node context handed in by the workflow engine.  [W] is the
    state of everything behind the transport. *)
Record IExecuteFunctions (W Node : Type) := {
  getNode : Node;
  getCredentials : string → Settled Zammad.Credentials;
  helpers_request : Options.t → W → Settled JVal * W;
}.
Arguments getNode {W Node} _.
Arguments getCredentials {W Node} _ _.
Arguments helpers_request {W Node} _ _ _.

(** The state a call runs in: the world behind the transport, the
    requests handed to the transport so far (oldest first), and the
    contents of the query-string object the caller passed to the paginated
    fetcher, which the fetcher writes to in place. *)
Record State (W : Type) := {
  world : W;
  trace : list Options.t;
  qsObject : IDataObject;
}.
Arguments world {W} _.
Arguments trace {W} _.
Arguments qsObject {W} _.

Definition M (W Node A : Type) : Type := State W → Outcome Node A * State W.

Definition ret {W Node A} (a : A) : M W Node A := λ st, (Returned a, st).

Definition throw {W Node A} (e : Thrown Node) : M W Node A := λ st, (Threw e, st).

Definition outOfFuel {W Node A} : M W Node A := λ st, (OutOfFuel, st).

Definition bind {W Node A B} (m : M W Node A) (k : A → M W Node B) : M W Node B :=
  λ st,
    match m st with
    | (Returned a, st') => k a st'
    | (Threw e, st') => (Threw e, st')
    | (OutOfFuel, st') => (OutOfFuel, st')
    end.

Declare Scope js_scope.
Delimit Scope js_scope with js.
Notation "x <- m ;; k" := (bind m (λ x, k))
  (at level 100, m at next level, right associativity) : js_scope.
Notation "m ;;; k" := (bind m (λ _, k))
  (at level 100, right associativity) : js_scope.

(** A property read or spread that faults raises a TypeError. *)
Definition orTypeError {W Node A} (o : option A) : M W Node A :=
  match o with
  | Some a => ret a
  | None => throw TypeError
  end.

Definition readQs {W Node} : M W Node IDataObject :=
  λ st, (Returned (qsObject st), st).

Definition writeQs {W Node} (key : string) (v : JVal) : M W Node unit :=
  λ st, (Returned tt,
         {| world := world st; trace := trace st;
            qsObject := <[key := v]> (qsObject st) |}).

(** [await this.helpers.request(options)], recorded in the trace. *)
Definition request {W Node} (this : IExecuteFunctions W Node) (options : Options.t)
    : M W Node (Settled JVal) :=
  λ st,
    let '(r, w) := helpers_request this options (world st) in
    (Returned r,
     {| world := w; trace := trace st ++ [options]; qsObject := qsObject st |}).

(* ================================================================== *)
(** * zammadApiRequest *)
(* ================================================================== *)

(** The catch block (lines 74-80): what is thrown for a caught [error]. *)
Definition catchHandler {Node} (node : Node) (error : JVal) : Thrown Node :=
  match getProperty error "error" with
  | None => TypeError
  | Some inner =>
      match getProperty inner "error" with
      | None => TypeError
      | Some message =>
          if strictEqualsString message "Object already exists!"
          then
            let inner' :=
              setProperty inner "error"
                (JStr "An entity with this name already exists.") in
            NodeApiError node (setProperty error "error" inner')
          else NodeApiError node error
      end
  end.

Definition zammadApiRequest {W Node} (this : IExecuteFunctions W Node)
    (method endpoint : string) (body qs : IDataObject) : M W Node JVal :=
  match getCredentials this "zammadApi" with
  | Rejected e => throw (HostError e)
  | Fulfilled credentials =>
      let options := buildOptions credentials method endpoint body qs in
      (settled <- request this options ;;
       match settled with
       | Fulfilled response => ret response
       | Rejected error => throw (catchHandler (getNode this) error)
       end)%js
  end.

(* ================================================================== *)
(** * zammadApiRequestAllItems *)
(* ================================================================== *)

(** [qs.page++].  The property holds the number written at line 97 or by
    an earlier increment (lemma [iteration_page] below), which is the
    only case spelled out. *)
Definition postIncrement (v : JVal) : JVal :=
  match v with
  | JNum n => JNum (n + 1)
  | _ => v
  end.

Definition incrementPage {W Node} : M W Node unit :=
  (qs <- readQs ;;
   writeQs "page" (postIncrement (default JUndefined (qs !! "page"))))%js.

(** How one pass through the body of the do-while loop ends. *)
Inductive Step : Type :=
| Return (result : list JVal)
| Continue (returnData : list JVal).

(** [limit && returnData.length > limit]. *)
Definition overLimit (limit : Z) (returnData : list JVal) : bool :=
  truthy (JNum limit) && bool_decide (limit < Z.of_nat (length returnData)).

(** Lines 100-108: one pass through the loop body and its condition. *)
Definition iteration {W Node} (this : IExecuteFunctions W Node)
    (method endpoint : string) (body : IDataObject) (limit : Z)
    (returnData : list JVal) : M W Node Step :=
  (qs <- readQs ;;
   responseData <- zammadApiRequest this method endpoint body qs ;;
   items <- orTypeError (iterate responseData) ;;
   let returnData := returnData ++ items in
   if overLimit limit returnData
   then ret (Return (slice returnData 0 limit))
   else
     (incrementPage ;;;
      len <- orTypeError (getProperty responseData "length") ;;
      if truthy len then ret (Continue returnData) else ret (Return returnData)))%js.

(** The do-while loop; [fuel] bounds the number of passes. *)
Fixpoint paginate {W Node} (this : IExecuteFunctions W Node)
    (method endpoint : string) (body : IDataObject) (limit : Z)
    (fuel : nat) (returnData : list JVal) : M W Node (list JVal) :=
  match fuel with
  | O => outOfFuel
  | S fuel' =>
      (step <- iteration this method endpoint body limit returnData ;;
       match step with
       | Return result => ret result
       | Continue returnData' =>
           paginate this method endpoint body limit fuel' returnData'
       end)%js
  end.

(** The query-string object of the caller is [qsObject] of the state the
    call starts in. *)
Definition zammadApiRequestAllItems {W Node} (this : IExecuteFunctions W Node)
    (method endpoint : string) (body : IDataObject) (limit : Z) (fuel : nat)
    : M W Node (list JVal) :=
  (writeQs "per_page" (JNum 20) ;;;
   writeQs "page" (JNum 1) ;;;
   paginate this method endpoint body limit fuel [])%js.

(* ================================================================== *)
(** * A paged remote, for the pagination scenarios *)
(* ================================================================== *)

(** The [page] query parameter carried by a request. *)
Definition requestedPage (options : Options.t) : option Z :=
  match Options.qs options with
  | Some q =>
      match q !! "page" with
      | Some (JNum n) => Some n
      | _ => None
      end
  | None => None
  end.

(** A remote that holds [pages] and answers a request for page [n] with
    the [n]-th of them, and with an empty list beyond the last one. *)
Definition pagedRemote (pages : list (list JVal))
    : Options.t → unit → Settled JVal * unit :=
  λ options w,
    match requestedPage options with
    | Some n =>
        if decide (1 ≤ n)
        then (Fulfilled (JArr (default [] (pages !! Z.to_nat (n - 1)))), w)
        else (Fulfilled (JArr []), w)
    | None => (Fulfilled (JArr []), w)
    end.

Definition pagedHost {Node} (node : Node) (credentials : Zammad.Credentials)
    (pages : list (list JVal)) : IExecuteFunctions unit Node :=
  {| getNode := node;
     getCredentials := λ _, Fulfilled credentials;
     helpers_request := pagedRemote pages |}.

Definition initial (qs : IDataObject) : State unit :=
  {| world := tt; trace := []; qsObject := qs |}.

Definition tokenCredentials : Zammad.Credentials :=
  {| Zammad.authType := "tokenAuth";
     Zammad.baseUrl := "https://h/";
     Zammad.username := "";
     Zammad.password := "";
     Zammad.accessToken := "secret";
     Zammad.allowUnauthorizedCerts := false |}.

(** Items numbered [from], [from + 1], ..., [count] of them. *)
Definition numbered (from : Z) (count : nat) : list JVal :=
  (λ i, JNum (from + Z.of_nat i)) <$> seq 0 count.

(** Pages of sizes 20, 20 and 5. *)
Definition threePages : list (list JVal) :=
  [numbered 0 20; numbered 20 20; numbered 40 5].

(** Two field records, as the object manager of the remote lists them. *)
Definition usernameField : Zammad.Field :=
  {| Zammad.name := "username"; Zammad.display := "username";
     Zammad.object := "User"; Zammad.created_by_id := 1 |}.

Definition titleField : Zammad.Field :=
  {| Zammad.name := "title"; Zammad.display := "Title";
     Zammad.object := "Ticket"; Zammad.created_by_id := 1 |}.

(* ================================================================== *)
(** * States reached by the steps of a call *)
(* ================================================================== *)

(** The state after [options] went to the transport and the world moved
    to [w]. *)
Definition sent {W} (options : Options.t) (w : W) (st : State W) : State W :=
  {| world := w; trace := trace st ++ [options]; qsObject := qsObject st |}.

(** The state after [qs.page++]. *)
Definition bumped {W} (st : State W) : State W :=
  {| world := world st; trace := trace st;
     qsObject :=
       <["page" := postIncrement (default JUndefined (qsObject st !! "page"))]>
         (qsObject st) |}.

(** The state the loop of the paginated fetcher starts in. *)
Definition prepared {W} (st : State W) : State W :=
  {| world := world st; trace := trace st;
     qsObject := <["page" := JNum 1]> (<["per_page" := JNum 20]> (qsObject st)) |}.

(* ================================================================== *)
(** * Failures of the transport *)
(* ================================================================== *)

(** The caught value has nothing to dereference under [error]: it is not
    an object at all, or its [error] property is missing, [undefined] or
    [null]. *)
Definition lacksNestedError (error : JVal) : Prop :=
  match error with
  | JObj o =>
      o !! "error" = None ∨ o !! "error" = Some JUndefined ∨
      o !! "error" = Some JNull
  | _ => True
  end.

(** A host whose transport rejects every request with [error]. *)
Definition rejectingHost {Node} (node : Node) (credentials : Zammad.Credentials)
    (error : JVal) : IExecuteFunctions unit Node :=
  {| getNode := node;
     getCredentials := λ _, Fulfilled credentials;
     helpers_request := λ _ w, (Rejected error, w) |}.

(** The error payload of the remote for a duplicate entity, and one for
    another failure. *)
Definition alreadyExistsBody : IDataObject :=
  {[ "error" := JStr "Object already exists!" ]}.

Definition alreadyExists : IDataObject :=
  {[ "error" := JObj alreadyExistsBody ]}.

Definition notAuthorizedBody : IDataObject :=
  {[ "error" := JStr "Not authorized" ]}.

Definition notAuthorized : IDataObject :=
  {[ "error" := JObj notAuthorizedBody ]}.

(** The descriptor of the request for page [k], for a caller that passed
    the query-string object [qs]. *)
Definition pageRequest (credentials : Zammad.Credentials)
    (method endpoint : string) (body qs : IDataObject) (k : Z) : Options.t :=
  buildOptions credentials method endpoint body (<["page" := JNum k]> qs).

(* ================================================================== *)
(** * Load-option helpers and relevance predicates (lines 119-159) *)
(* ================================================================== *)

(** Modelled from the spec: the declarations [Zammad.User] and
    [Zammad.Organization] of [./types], which is not among the sources,
    restricted to the properties this module reads. *)
Module User.
Record t := {
  role_ids : list Z;
  email : string;
}.
End User.

Module Organization.
Record t := {
  name : string;
  active : bool;
}.
End Organization.

(** [new NodeOperationError(node, message)] of n8n-workflow. *)
Inductive OperationThrown (Node : Type) : Type :=
| NodeOperationError (node : Node) (message : string).
Arguments NodeOperationError {Node} node message.

(** The value [throwOnEmptyUpdate] throws; it has no other outcome. *)
Definition throwOnEmptyUpdate {W Node} (this : IExecuteFunctions W Node)
    (resource : string) : OperationThrown Node :=
  NodeOperationError (getNode this)
    ("Please enter at least one field to update for the " +:+ resource).

Definition isCustomer (user : User.t) : bool :=
  bool_decide (3 ∈ User.role_ids user)
  && negb (endsWith (User.email user) "@zammad.org").

Definition getAllFields {W Node} (this : IExecuteFunctions W Node) : M W Node JVal :=
  zammadApiRequest this "GET" "/object_manager_attributes" ∅ ∅.

Definition isTypeField (resource : string) (arr : list Zammad.Field)
    : list Zammad.Field :=
  filter (λ i, Zammad.object i = resource) arr.

Definition getGroupFields := isTypeField "Group".
Definition getOrganizationFields := isTypeField "Organization".
Definition getUserFields := isTypeField "User".
Definition getTicketFields := isTypeField "Ticket".

Definition getCustomFields (arr : list Zammad.Field) : list Zammad.Field :=
  filter (λ i, Zammad.created_by_id i ≠ 1) arr.

(** lodash [flow] of two functions: left to right. *)
Definition flow {A B C : Type} (f : A → B) (g : B → C) : A → C :=
  λ x, g (f x).

Definition getGroupCustomFields := flow getGroupFields getCustomFields.
Definition getOrganizationCustomFields := flow getOrganizationFields getCustomFields.
Definition getUserCustomFields := flow getUserFields getCustomFields.
Definition getTicketCustomFields := flow getTicketFields getCustomFields.

Definition isRelevantOrg (i : Organization.t) : bool :=
  negb (String.eqb (Organization.name i) "Zammad Foundation")
  && Organization.active i.

Definition isRelevantGroup (i : Organization.t) : bool :=
  Organization.active i.

(** The fields that belong to none of the four resources. *)
Definition otherFields (arr : list Zammad.Field) : list Zammad.Field :=
  filter (λ i, Zammad.object i ≠ "Group" ∧ Zammad.object i ≠ "Organization" ∧
               Zammad.object i ≠ "User" ∧ Zammad.object i ≠ "Ticket") arr.

(** A host whose transport answers every request with [response]. *)
Definition constantHost {Node} (node : Node) (credentials : Zammad.Credentials)
    (response : JVal) : IExecuteFunctions unit Node :=
  {| getNode := node;
     getCredentials := λ _, Fulfilled credentials;
     helpers_request := λ _ w, (Fulfilled response, w) |}.

(** A host whose credential lookup fails with [error]. *)
Definition lockedHost {Node} (node : Node) (error : JVal)
    (pages : list (list JVal)) : IExecuteFunctions unit Node :=
  {| getNode := node;
     getCredentials := λ _, Rejected error;
     helpers_request := pagedRemote pages |}.

Definition basicCredentials : Zammad.Credentials :=
  {| Zammad.authType := "basicAuth";
     Zammad.baseUrl := "https://h";
     Zammad.username := "agent";
     Zammad.password := "pw";
     Zammad.accessToken := "";
     Zammad.allowUnauthorizedCerts := true |}.

Definition unknownCredentials : Zammad.Credentials :=
  {| Zammad.authType := "oauth";
     Zammad.baseUrl := "https://h/";
     Zammad.username := "";
     Zammad.password := "";
     Zammad.accessToken := "";
     Zammad.allowUnauthorizedCerts := false |}.

(** [credentials] with another base URL. *)
Definition withBaseUrl (credentials : Zammad.Credentials) (url : string)
    : Zammad.Credentials :=
  {| Zammad.authType := Zammad.authType credentials;
     Zammad.baseUrl := url;
     Zammad.username := Zammad.username credentials;
     Zammad.password := Zammad.password credentials;
     Zammad.accessToken := Zammad.accessToken credentials;
     Zammad.allowUnauthorizedCerts := Zammad.allowUnauthorizedCerts credentials |}.

Definition groupField : Zammad.Field :=
  {| Zammad.name := "shared_drafts"; Zammad.display := "Shared drafts";
     Zammad.object := "Group"; Zammad.created_by_id := 2 |}.

(* ================================================================== *)
(** * Proof steps *)
(* ================================================================== *)

(** Unfold one step of string append on a constructor and simplify. *)
Ltac str_simpl := unfold String.append; fold String.append; simpl.

(* ================================================================== *)
(** * Strings: append and substring *)
(* ================================================================== *)

Lemma string_app_nil_l (b : string) : "" +:+ b = b.
Proof. reflexivity. Qed.

Lemma string_length_app (a b : string) :
  String.length (a +:+ b) = (String.length a + String.length b)%nat.
Proof. induction a as [|c a IH]; str_simpl; [done | by rewrite IH]. Qed.

Lemma substring_prefix_app (a b : string) :
  String.substring 0 (String.length a) (a +:+ b) = a.
Proof.
  induction a as [|c a IH]; str_simpl.
  - by destruct b.
  - by rewrite IH.
Qed.

Lemma substring_skip_app (a b : string) (n m : nat) :
  String.substring (String.length a + n) m (a +:+ b) = String.substring n m b.
Proof. induction a as [|c a IH]; str_simpl; done. Qed.

Lemma substring_whole (s : string) : String.substring 0 (String.length s) s = s.
Proof. induction s as [|c s IH]; simpl; [done | by rewrite IH]. Qed.

Lemma substring_length (s : string) (n m : nat) :
  String.length (String.substring n m s) = Nat.min m (String.length s - n).
Proof.
  revert n m.
  induction s as [|c s IH]; intros [|n] [|m]; simpl;
    rewrite ?IH, ?Nat.sub_0_r; done.
Qed.

Lemma substring_split (s : string) (n m : nat) :
  (n + m ≤ String.length s)%nat →
  s = String.substring 0 n s +:+ String.substring n m s
        +:+ String.substring (n + m) (String.length s - (n + m)) s.
Proof.
  revert n m. induction s as [|c s IH]; intros n m Hle; simpl in *.
  - assert (n = 0)%nat as -> by lia. assert (m = 0)%nat as -> by lia. done.
  - destruct n as [|n]; simpl.
    + destruct m as [|m]; str_simpl.
      * by rewrite substring_whole.
      * f_equal. specialize (IH 0%nat m). simpl in IH.
        assert (String.substring 0 0 s = "") as H0 by (by destruct s).
        rewrite H0, string_app_nil_l in IH. apply IH. lia.
    + str_simpl. f_equal. apply IH. lia.
Qed.

(** An occurrence of [pat] at position [k] splits [s] around it. *)
Lemma occurrence_at (pat s : string) (k : nat) :
  pat ≠ "" →
  String.substring k (String.length pat) s = pat →
  ∃ a b, s = a +:+ pat +:+ b ∧ String.length a = k.
Proof.
  intros Hne Hsub.
  assert (k + String.length pat ≤ String.length s)%nat as Hle.
  { pose proof (substring_length s k (String.length pat)) as Hl.
    rewrite Hsub in Hl.
    assert (0 < String.length pat)%nat by (destruct pat; [done | simpl; lia]).
    lia. }
  eexists _, _. split.
  - pose proof (substring_split s k (String.length pat) Hle) as Hs.
    rewrite Hsub in Hs. exact Hs.
  - rewrite substring_length. lia.
Qed.

Lemma index_first_occurrence (pat s pre post : string) :
  pat ≠ "" → first_occurrence pat s pre post →
  String.index 0 pat s = Some (String.length pre).
Proof.
  intros Hne [Hs Hmin].
  assert (String.substring (String.length pre) (String.length pat) s = pat) as Hat.
  { rewrite Hs, <- (Nat.add_0_r (String.length pre)), substring_skip_app.
    apply substring_prefix_app. }
  destruct (String.index 0 pat s) as [m|] eqn:Hidx.
  - f_equal.
    destruct (occurrence_at pat s m Hne (String.index_correct1 _ _ _ _ Hidx))
      as (a & b & Hab & Hlen).
    pose proof (Hmin a b Hab) as Hge.
    destruct (decide (String.length pre < m)%nat) as [Hlt|]; [|lia].
    exfalso.
    by eapply (String.index_correct2 _ _ _ _ Hidx (String.length pre)); [lia|..].
  - exfalso.
    by eapply (String.index_correct3 0 (String.length pre) pat s Hidx Hne); [lia|].
Qed.

Lemma replace_first_occurrence (pat rep s pre post : string) :
  pat ≠ "" → first_occurrence pat s pre post →
  replace s pat rep = pre +:+ rep +:+ post.
Proof.
  intros Hne Hfo. unfold replace.
  rewrite (index_first_occurrence _ _ _ _ Hne Hfo).
  destruct Hfo as [-> _]. cbv zeta.
  rewrite substring_prefix_app, substring_skip_app.
  rewrite <- (Nat.add_0_r (String.length pat)) at 1.
  rewrite substring_skip_app, !string_length_app.
  replace (_ - _)%nat with (String.length post) by lia.
  by rewrite substring_whole.
Qed.

Lemma replace_absent (pat rep s : string) :
  pat ≠ "" → (∀ a b, s ≠ a +:+ pat +:+ b) → replace s pat rep = s.
Proof.
  intros Hne Habs. unfold replace.
  destruct (String.index 0 pat s) as [m|] eqn:Hidx; [|done].
  destruct (occurrence_at pat s m Hne (String.index_correct1 _ _ _ _ Hidx))
    as (a & b & Hab & _).
  by destruct (Habs a b).
Qed.

Lemma endsWith_slash_app (pre : string) : endsWith (pre +:+ "/") "/" = true.
Proof.
  unfold endsWith. rewrite string_length_app. simpl.
  destruct (decide _) as [_|]; [|lia].
  replace (String.length pre + 1 - 1)%nat with (String.length pre + 0)%nat by lia.
  by rewrite substring_skip_app.
Qed.

Lemma endsWith_slash_inv (url : string) :
  endsWith url "/" = true → ∃ pre, url = pre +:+ "/".
Proof.
  unfold endsWith. simpl. destruct (decide _) as [Hle|]; [|done].
  intros Heq%String.eqb_eq.
  destruct (occurrence_at "/" url (String.length url - 1)) as (a & b & Hab & Hlen);
    [done|done|].
  exists a. rewrite Hab. f_equal.
  assert (String.length b = 0)%nat as Hb.
  { apply (f_equal String.length) in Hab. rewrite !string_length_app in Hab. simpl in *. lia. }
  destruct b; [done | simpl in Hb; lia].
Qed.

Lemma tolerateTrailingSlash_app (pre : string) :
  tolerateTrailingSlash (pre +:+ "/") = pre.
Proof.
  unfold tolerateTrailingSlash. rewrite endsWith_slash_app.
  unfold substr. rewrite string_length_app. simpl.
  destruct (decide (0 < 0)); [lia|].
  rewrite Z.min_l by lia. change (Z.to_nat 0) with 0%nat.
  replace (Z.to_nat _) with (String.length pre) by lia.
  apply substring_prefix_app.
Qed.

(* ================================================================== *)
(** * tolerateTrailingSlash and fieldToLoadOption *)
(* ================================================================== *)

(** C5. A URL that ends in a slash loses exactly that one slash: the
    result of [tolerateTrailingSlash] on [pre ++ "/"] is [pre], whatever
    [pre] is (so a second slash at the end of [pre] stays).  A URL that
    does not end in a slash is returned unchanged. *)
Theorem tolerateTrailingSlash_spec (url : string) :
  (∀ pre, url = pre +:+ "/" → tolerateTrailingSlash url = pre) ∧
  ((∀ pre, url ≠ pre +:+ "/") → tolerateTrailingSlash url = url).
Proof.
  split.
  - intros pre ->. apply tolerateTrailingSlash_app.
  - intros Hno. unfold tolerateTrailingSlash.
    destruct (endsWith url "/") eqn:He; [|done].
    destruct (endsWith_slash_inv url He) as [pre ->]. by destruct (Hno pre).
Qed.

Lemma tolerateTrailingSlash_spec_witness :
  ("https://h/" = "https://h" +:+ "/" ∧
   tolerateTrailingSlash "https://h/" = "https://h") ∧
  ((∀ pre, "https://h" ≠ pre +:+ "/") ∧
   tolerateTrailingSlash "https://h" = "https://h").
Proof.
  assert (∀ pre, "https://h" ≠ pre +:+ "/") as Hno.
  { intros pre Heq.
    assert (endsWith "https://h" "/" = true) as He
      by (rewrite Heq; apply endsWith_slash_app).
    vm_compute in He. discriminate He. }
  split.
  - split; [reflexivity|].
    apply (proj1 (tolerateTrailingSlash_spec "https://h/")). reflexivity.
  - split; [exact Hno|].
    apply (proj2 (tolerateTrailingSlash_spec "https://h")). exact Hno.
Defined.

(** C8. [fieldToLoadOption] keeps the raw name of the field as [value]
    and takes as [name] the display string in which the leftmost
    occurrence of "name", and only that one, is replaced by " Name"; a
    display string without "name" is kept as it is.  For the field
    [{name: "username", display: "username"}] the result is
    [{name: "user Name", value: "username"}]. *)
Theorem fieldToLoadOption_spec (i : Zammad.Field) :
  value (fieldToLoadOption i) = Zammad.name i ∧
  (∀ pre post, first_occurrence "name" (Zammad.display i) pre post →
     name (fieldToLoadOption i) = pre +:+ " Name" +:+ post) ∧
  ((∀ a b, Zammad.display i ≠ a +:+ "name" +:+ b) →
     name (fieldToLoadOption i) = Zammad.display i) ∧
  (∀ o c, fieldToLoadOption
            {| Zammad.name := "username"; Zammad.display := "username";
               Zammad.object := o; Zammad.created_by_id := c |}
          = {| name := "user Name"; value := "username" |}).
Proof.
  split; [done|]. split; [|split].
  - intros pre post Hfo. by apply replace_first_occurrence.
  - intros Habs. by apply replace_absent.
  - done.
Qed.

Lemma first_occurrence_username : first_occurrence "name" "username" "user" "".
Proof.
  split; [done|]. intros a b Hab.
  destruct a as [|c0 [|c1 [|c2 [|c3 a]]]]; simpl; try lia;
    vm_compute in Hab; discriminate Hab.
Qed.

Lemma absent_in_title : ∀ a b, "Title" ≠ a +:+ "name" +:+ b.
Proof.
  intros a b Hab. apply (f_equal (String.index 0 "name")) in Hab.
  destruct (String.index 0 "name" (a +:+ "name" +:+ b)) as [m|] eqn:Hidx.
  - vm_compute in Hab. discriminate Hab.
  - apply (String.index_correct3 0 (String.length a) "name" _ Hidx); [done|lia|].
    rewrite <- (Nat.add_0_r (String.length a)), substring_skip_app.
    apply (substring_prefix_app "name" b).
Qed.

Lemma fieldToLoadOption_spec_witness :
  (first_occurrence "name" "username" "user" "" ∧
   name (fieldToLoadOption usernameField) = "user" +:+ " Name" +:+ "") ∧
  ((∀ a b, "Title" ≠ a +:+ "name" +:+ b) ∧
   name (fieldToLoadOption titleField) = "Title").
Proof.
  split; split.
  - exact first_occurrence_username.
  - apply (proj1 (proj2 (fieldToLoadOption_spec usernameField))).
    exact first_occurrence_username.
  - exact absent_in_title.
  - apply (proj1 (proj2 (proj2 (fieldToLoadOption_spec titleField)))).
    exact absent_in_title.
Defined.

(* ================================================================== *)
(** * The request descriptor *)
(* ================================================================== *)

Lemma keysLength_falsy (o : IDataObject) :
  negb (truthy (JNum (keysLength o))) = bool_decide (o = ∅).
Proof.
  unfold keysLength. simpl. rewrite negb_involutive.
  destruct (decide (o = ∅)) as [->|Hne].
  - by rewrite map_size_empty.
  - rewrite bool_decide_eq_false_2 by done.
    apply Z.eqb_neq. intros Hz. apply Hne, map_size_empty_iff. lia.
Qed.

Lemma buildOptions_uri (credentials : Zammad.Credentials)
    (method endpoint : string) (body qs : IDataObject) :
  Zammad.authType credentials = "basicAuth" ∨
  Zammad.authType credentials = "tokenAuth" →
  Options.uri (buildOptions credentials method endpoint body qs)
    = tolerateTrailingSlash (Zammad.baseUrl credentials) +:+ "/api/v1" +:+ endpoint
  ∧ Options.rejectUnauthorized (buildOptions credentials method endpoint body qs)
    = Some (negb (Zammad.allowUnauthorizedCerts credentials)).
Proof.
  intros Hauth. unfold buildOptions.
  destruct (negb (truthy (JNum (keysLength body))));
    destruct (negb (truthy (JNum (keysLength qs))));
    destruct Hauth as [-> | ->]; done.
Qed.

Lemma buildOptions_body_qs (credentials : Zammad.Credentials)
    (method endpoint : string) (body qs : IDataObject) :
  Options.body (buildOptions credentials method endpoint body qs)
    = (if decide (body = ∅) then None else Some body)
  ∧ Options.qs (buildOptions credentials method endpoint body qs)
    = (if decide (qs = ∅) then None else Some qs).
Proof.
  unfold buildOptions. rewrite !keysLength_falsy.
  destruct (String.eqb (Zammad.authType credentials) "basicAuth"),
    (String.eqb (Zammad.authType credentials) "tokenAuth");
    do 2 case_bool_decide; by repeat case_decide.
Qed.

Section Request.
Context {W Node : Type}.
Implicit Types (this : IExecuteFunctions W Node) (st : State W).

Lemma zammadApiRequest_unfold this method endpoint body qs st credentials :
  getCredentials this "zammadApi" = Fulfilled credentials →
  zammadApiRequest this method endpoint body qs st =
    let options := buildOptions credentials method endpoint body qs in
    let '(settled, w) := helpers_request this options (world st) in
    (match settled with
     | Fulfilled response => Returned response
     | Rejected error => Threw (catchHandler (getNode this) error)
     end, sent options w st).
Proof.
  intros Hc. unfold zammadApiRequest, bind, request, sent. rewrite Hc.
  cbv zeta. by destruct (helpers_request _ _ _) as [[response|error] w].
Qed.

Lemma zammadApiRequest_returned this method endpoint body qs st response st' :
  zammadApiRequest this method endpoint body qs st = (Returned response, st') →
  ∃ credentials w,
    getCredentials this "zammadApi" = Fulfilled credentials ∧
    helpers_request this (buildOptions credentials method endpoint body qs)
      (world st) = (Fulfilled response, w) ∧
    st' = sent (buildOptions credentials method endpoint body qs) w st.
Proof.
  destruct (getCredentials this "zammadApi") as [credentials|e] eqn:Hc.
  - rewrite (zammadApiRequest_unfold _ _ _ _ _ _ _ Hc). cbv zeta.
    destruct (helpers_request _ _ _) as [[r|error] w] eqn:Hr; [|done].
    intros [= -> <-]. by exists credentials, w.
  - unfold zammadApiRequest. by rewrite Hc.
Qed.
End Request.

(** The assignment in the catch block only runs on objects: when the
    message read at [error.error.error] is a string, both the caught value
    and its [error] property are objects. *)
Lemma rewrite_targets_are_objects (error inner message : JVal) (s : string) :
  getProperty error "error" = Some inner →
  getProperty inner "error" = Some message →
  strictEqualsString message s = true →
  ∃ o i, error = JObj o ∧ inner = JObj i.
Proof.
  intros He Hi Hs.
  destruct inner as [| |b|n|t|xs|i]; simpl in Hi; try done;
    try (injection Hi as <-; done).
  destruct error as [| |b|n|t|xs|o]; simpl in He; try done;
    try (injection He as He; done).
  by exists o, i.
Qed.

Section RequestClaims.
Context {W Node : Type}.
Implicit Types (this : IExecuteFunctions W Node) (st : State W).

(** C6. For credentials of either variant ([authType] "basicAuth" or
    "tokenAuth") and any endpoint, the descriptor that
    [zammadApiRequest] hands to the transport has as URL the base URL
    without its trailing slash, followed by "/api/v1" and the endpoint,
    and verifies TLS certificates exactly when
    [allowUnauthorizedCerts] is off. *)
Theorem request_uri_and_tls this method endpoint body qs st credentials :
  getCredentials this "zammadApi" = Fulfilled credentials →
  Zammad.authType credentials = "basicAuth" ∨
  Zammad.authType credentials = "tokenAuth" →
  ∃ options,
    trace (zammadApiRequest this method endpoint body qs st).2
      = trace st ++ [options] ∧
    Options.uri options
      = tolerateTrailingSlash (Zammad.baseUrl credentials)
          +:+ "/api/v1" +:+ endpoint ∧
    Options.rejectUnauthorized options
      = Some (negb (Zammad.allowUnauthorizedCerts credentials)).
Proof.
  intros Hc Hauth.
  exists (buildOptions credentials method endpoint body qs). split.
  - rewrite (zammadApiRequest_unfold _ _ _ _ _ _ _ Hc). cbv zeta.
    by destruct (helpers_request _ _ _) as [[r|e] w].
  - by apply buildOptions_uri.
Qed.

(** C7. The descriptor that [zammadApiRequest] hands to the transport
    has no body property when the body mapping is empty and no query
    property when the query mapping is empty; a mapping that is not
    empty is passed on as it is. *)
Theorem request_omits_empty_body_and_qs this method endpoint body qs st credentials :
  getCredentials this "zammadApi" = Fulfilled credentials →
  ∃ options,
    trace (zammadApiRequest this method endpoint body qs st).2
      = trace st ++ [options] ∧
    Options.body options = (if decide (body = ∅) then None else Some body) ∧
    Options.qs options = (if decide (qs = ∅) then None else Some qs).
Proof.
  intros Hc.
  exists (buildOptions credentials method endpoint body qs). split.
  - rewrite (zammadApiRequest_unfold _ _ _ _ _ _ _ Hc). cbv zeta.
    by destruct (helpers_request _ _ _) as [[r|e] w].
  - apply buildOptions_body_qs.
Qed.

(** C4. When the transport rejects the request, [zammadApiRequest]
    throws: no failure is turned into a result.  If the rejection
    carries a message string under [error.error], the thrown value is
    a [NodeApiError] for the node of the call; it wraps the error with
    the message replaced by "An entity with this name already exists."
    when the message is exactly "Object already exists!", and the error
    as it was caught for every other message. *)
Theorem rejected_request_rethrown this method endpoint body qs st
    credentials error w :
  getCredentials this "zammadApi" = Fulfilled credentials →
  helpers_request this (buildOptions credentials method endpoint body qs)
    (world st) = (Rejected error, w) →
  (∃ thrown,
     (zammadApiRequest this method endpoint body qs st).1 = Threw thrown) ∧
  (∀ o inner message,
     error = JObj o →
     o !! "error" = Some (JObj inner) →
     inner !! "error" = Some (JStr message) →
     (message = "Object already exists!" →
      (zammadApiRequest this method endpoint body qs st).1
        = Threw (NodeApiError (getNode this)
            (JObj (<["error" :=
               JObj (<["error" := JStr "An entity with this name already exists."]>
                       inner)]> o)))) ∧
     (message ≠ "Object already exists!" →
      (zammadApiRequest this method endpoint body qs st).1
        = Threw (NodeApiError (getNode this) error))).
Proof.
  intros Hc Hr. rewrite (zammadApiRequest_unfold _ _ _ _ _ _ _ Hc).
  cbv zeta. rewrite Hr. simpl. split; [by eexists|].
  intros o inner message -> Ho Hi. unfold catchHandler. simpl.
  rewrite Ho. simpl. rewrite Hi. simpl. split.
  - intros ->. done.
  - intros Hne. by rewrite (proj2 (String.eqb_neq _ _) Hne).
Qed.

(** C10. The catch block reads [error.error.error] unguarded.  When
    the caught value has nothing to dereference under [error]
    ([lacksNestedError]), the read faults and the caller gets the raw
    TypeError, not a [NodeApiError] carrying the node; in every other
    case the caller gets a [NodeApiError] for the node of the call. *)
Theorem catch_faults_without_nested_error this method endpoint body qs st
    credentials error w :
  getCredentials this "zammadApi" = Fulfilled credentials →
  helpers_request this (buildOptions credentials method endpoint body qs)
    (world st) = (Rejected error, w) →
  (lacksNestedError error →
   (zammadApiRequest this method endpoint body qs st).1 = Threw TypeError) ∧
  (¬ lacksNestedError error →
   ∃ error',
     (zammadApiRequest this method endpoint body qs st).1
       = Threw (NodeApiError (getNode this) error')).
Proof.
  intros Hc Hr. rewrite (zammadApiRequest_unfold _ _ _ _ _ _ _ Hc).
  cbv zeta. rewrite Hr. simpl. unfold catchHandler. split.
  - destruct error as [| |b|n|s|xs|o]; simpl; try done.
    intros [-> | [-> | ->]]; done.
  - destruct error as [| |b|n|s|xs|o]; simpl; try (by intros []).
    destruct (o !! "error") as [inner|] eqn:Ho; simpl.
    + intros Hl.
      destruct inner as [| |b|n|s|xs|inner]; simpl;
        try (by destruct Hl; auto);
        repeat case_decide; try done;
        try (by eexists).
      destruct (strictEqualsString _ _); by eexists.
    + intros Hl. destruct Hl. auto.
Qed.
End RequestClaims.

Lemma request_uri_and_tls_witness :
  (Zammad.authType tokenCredentials = "basicAuth" ∨
   Zammad.authType tokenCredentials = "tokenAuth") ∧
  ∃ options,
    trace (zammadApiRequest (pagedHost tt tokenCredentials threePages)
             "GET" "/tickets" ∅ ∅ (initial ∅)).2 = [] ++ [options] ∧
    Options.uri options
      = tolerateTrailingSlash "https://h/" +:+ "/api/v1" +:+ "/tickets" ∧
    Options.rejectUnauthorized options = Some (negb false).
Proof.
  split; [by right|].
  apply (request_uri_and_tls (pagedHost tt tokenCredentials threePages)
           "GET" "/tickets" ∅ ∅ (initial ∅) tokenCredentials).
  - reflexivity.
  - right. reflexivity.
Defined.

Lemma request_omits_empty_body_and_qs_witness :
  ∃ options,
    trace (zammadApiRequest (pagedHost tt tokenCredentials threePages)
             "GET" "/tickets" ∅ ∅ (initial ∅)).2 = [] ++ [options] ∧
    Options.body options = None ∧
    Options.qs options = None.
Proof.
  destruct (request_omits_empty_body_and_qs
              (pagedHost tt tokenCredentials threePages)
              "GET" "/tickets" ∅ ∅ (initial ∅) tokenCredentials eq_refl)
    as (options & Htrace & Hbody & Hqs).
  exists options. by rewrite decide_True in Hbody, Hqs.
Defined.

Lemma rejected_request_rethrown_witness :
  (alreadyExists !! "error" = Some (JObj alreadyExistsBody) ∧
   alreadyExistsBody !! "error" = Some (JStr "Object already exists!") ∧
   (zammadApiRequest (rejectingHost "Zammad" tokenCredentials (JObj alreadyExists))
      "POST" "/users" ∅ ∅ (initial ∅)).1
     = Threw (NodeApiError "Zammad"
         (JObj (<["error" :=
            JObj (<["error" := JStr "An entity with this name already exists."]>
                    alreadyExistsBody)]> alreadyExists)))) ∧
  (notAuthorized !! "error" = Some (JObj notAuthorizedBody) ∧
   notAuthorizedBody !! "error" = Some (JStr "Not authorized") ∧
   "Not authorized" ≠ "Object already exists!" ∧
   (zammadApiRequest (rejectingHost "Zammad" tokenCredentials (JObj notAuthorized))
      "POST" "/users" ∅ ∅ (initial ∅)).1
     = Threw (NodeApiError "Zammad" (JObj notAuthorized))).
Proof.
  split.
  - split; [reflexivity|]. split; [reflexivity|].
    apply (proj2 (rejected_request_rethrown
             (rejectingHost "Zammad" tokenCredentials (JObj alreadyExists))
             "POST" "/users" ∅ ∅ (initial ∅) tokenCredentials
             (JObj alreadyExists) tt eq_refl eq_refl)
           alreadyExists alreadyExistsBody "Object already exists!"
           eq_refl eq_refl eq_refl).
    reflexivity.
  - split; [reflexivity|]. split; [reflexivity|]. split; [discriminate|].
    apply (proj2 (rejected_request_rethrown
             (rejectingHost "Zammad" tokenCredentials (JObj notAuthorized))
             "POST" "/users" ∅ ∅ (initial ∅) tokenCredentials
             (JObj notAuthorized) tt eq_refl eq_refl)
           notAuthorized notAuthorizedBody "Not authorized"
           eq_refl eq_refl eq_refl).
    discriminate.
Defined.

Lemma catch_faults_without_nested_error_witness :
  (lacksNestedError (JObj ∅) ∧
   (zammadApiRequest (rejectingHost "Zammad" tokenCredentials (JObj ∅))
      "GET" "/tickets" ∅ ∅ (initial ∅)).1 = Threw TypeError) ∧
  (¬ lacksNestedError (JObj notAuthorized) ∧
   ∃ error',
     (zammadApiRequest (rejectingHost "Zammad" tokenCredentials (JObj notAuthorized))
        "GET" "/tickets" ∅ ∅ (initial ∅)).1
       = Threw (NodeApiError "Zammad" error')).
Proof.
  assert (¬ lacksNestedError (JObj notAuthorized)) as Hhas.
  { intros [H | [H | H]]; vm_compute in H; discriminate H. }
  split.
  - split; [by left|].
    apply (proj1 (catch_faults_without_nested_error
             (rejectingHost "Zammad" tokenCredentials (JObj ∅))
             "GET" "/tickets" ∅ ∅ (initial ∅) tokenCredentials
             (JObj ∅) tt eq_refl eq_refl)).
    by left.
  - split; [exact Hhas|].
    apply (proj2 (catch_faults_without_nested_error
             (rejectingHost "Zammad" tokenCredentials (JObj notAuthorized))
             "GET" "/tickets" ∅ ∅ (initial ∅) tokenCredentials
             (JObj notAuthorized) tt eq_refl eq_refl)).
    exact Hhas.
Defined.

(* ================================================================== *)
(** * One pass of the pagination loop *)
(* ================================================================== *)

Lemma characters_length (s : string) :
  length (characters s) = String.length s.
Proof. induction s as [|c s IH]; simpl; [done | by rewrite IH]. Qed.

(** After a successful spread, [responseData.length] is truthy exactly
    when the page holds an item. *)
Lemma length_truthy (v : JVal) (items : list JVal) :
  iterate v = Some items →
  ∃ len, getProperty v "length" = Some len ∧
         truthy len = bool_decide (items ≠ []).
Proof.
  destruct v as [| |b|n|s|xs|o]; simpl; try done; intros [= <-].
  - eexists. split; [done|]. by destruct s.
  - eexists. split; [done|]. by destruct xs.
Qed.

Lemma overLimit_positive (limit : Z) (returnData : list JVal) :
  0 < limit →
  overLimit limit returnData = bool_decide (limit < Z.of_nat (length returnData)).
Proof.
  intros Hpos. unfold overLimit. simpl.
  by rewrite (proj2 (Z.eqb_neq limit 0)) by lia.
Qed.

Lemma overLimit_zero (returnData : list JVal) : overLimit 0 returnData = false.
Proof. done. Qed.

Lemma slice_prefix {A} (l : list A) (limit : Z) :
  0 < limit → limit < Z.of_nat (length l) →
  slice l 0 limit = take (Z.to_nat limit) l ∧
  Z.of_nat (length (slice l 0 limit)) = limit.
Proof.
  intros Hpos Hlt. unfold slice.
  destruct (decide (0 < 0)); [lia|]. destruct (decide (limit < 0)); [lia|].
  rewrite Z.min_l by lia. rewrite Z.min_l by lia.
  change (Z.to_nat 0) with 0%nat. rewrite drop_0, Z.sub_0_r.
  split; [done|]. rewrite length_take. lia.
Qed.

Section Pagination.
Context {W Node : Type}.
Context (this : IExecuteFunctions W Node).
Context (method endpoint : string) (body : IDataObject) (limit : Z).
Implicit Types (st : State W) (returnData : list JVal).

Lemma zammadApiRequest_state qs st :
  qsObject (zammadApiRequest this method endpoint body qs st).2 = qsObject st ∧
  ∃ more, trace (zammadApiRequest this method endpoint body qs st).2
            = trace st ++ more ∧ (length more ≤ 1)%nat.
Proof.
  destruct (getCredentials this "zammadApi") as [credentials|e] eqn:Hc.
  - rewrite (zammadApiRequest_unfold _ _ _ _ _ _ _ Hc). cbv zeta.
    destruct (helpers_request _ _ _) as [settled w]. simpl.
    split; [done|]. eexists [_]. split; [done | simpl; lia].
  - unfold zammadApiRequest. rewrite Hc. simpl.
    split; [done|]. exists []. rewrite app_nil_r. split; [done | simpl; lia].
Qed.

(** The loop body, by the outcome of its request. *)
Lemma iteration_unfold returnData st :
  iteration this method endpoint body limit returnData st =
    match zammadApiRequest this method endpoint body (qsObject st) st with
    | (Returned responseData, st1) =>
        match iterate responseData with
        | Some items =>
            if overLimit limit (returnData ++ items)
            then (Returned (Return (slice (returnData ++ items) 0 limit)), st1)
            else (Returned (if bool_decide (items ≠ [])
                            then Continue (returnData ++ items)
                            else Return (returnData ++ items)),
                  bumped st1)
        | None => (Threw TypeError, st1)
        end
    | (Threw e, st1) => (Threw e, st1)
    | (OutOfFuel, st1) => (OutOfFuel, st1)
    end.
Proof.
  unfold iteration, bind at 1, readQs. simpl. unfold bind at 1.
  destruct (zammadApiRequest _ _ _ _ _ _) as [[responseData|e|] st1]; [|done..].
  unfold bind at 1.
  destruct (iterate responseData) as [items|] eqn:Hit; simpl; [|done].
  destruct (overLimit _ _); [done|].
  destruct (length_truthy _ _ Hit) as (len & -> & Hlen).
  unfold bind, incrementPage, bind, readQs, writeQs, bumped. simpl.
  rewrite Hlen. by case_bool_decide.
Qed.

(** [qs.page++] always finds the number it increments, and a pass
    leaves every other key of the query object alone. *)
Lemma iteration_page returnData st (k : Z) :
  qsObject st !! "page" = Some (JNum k) →
  ∃ more (b : Z),
    trace (iteration this method endpoint body limit returnData st).2
      = trace st ++ more ∧
    0 ≤ b ≤ Z.of_nat (length more) ∧
    qsObject (iteration this method endpoint body limit returnData st).2
      = <["page" := JNum (k + b)]> (qsObject st).
Proof.
  intros Hk. rewrite iteration_unfold.
  destruct (zammadApiRequest_state (qsObject st) st) as [Hq (more & Ht & Hlen)].
  assert (qsObject st = <["page" := JNum (k + 0)]> (qsObject st)) as Hsame.
  { by rewrite Z.add_0_r, insert_id. }
  destruct (zammadApiRequest _ _ _ _ _ _) as [[responseData|e|] st1] eqn:Hreq;
    simpl in *.
  - destruct (zammadApiRequest_returned _ _ _ _ _ _ _ _ Hreq)
      as (credentials & w & _ & _ & ->).
    destruct (iterate responseData) as [items|].
    + destruct (overLimit _ _); simpl.
      * eexists [_], 0. split; [done|]. split; [simpl; lia|]. exact Hsame.
      * eexists [_], 1. split; [done|]. split; [simpl; lia|].
        by rewrite Hk.
    + eexists [_], 0. split; [done|]. split; [simpl; lia|]. exact Hsame.
  - exists more, 0. rewrite Hq. split; [done|]. split; [lia|]. exact Hsame.
  - exists more, 0. rewrite Hq. split; [done|]. split; [lia|]. exact Hsame.
Qed.

Lemma paginate_unfold fuel returnData st :
  paginate this method endpoint body limit (S fuel) returnData st =
    match iteration this method endpoint body limit returnData st with
    | (Returned (Return result), st1) => (Returned result, st1)
    | (Returned (Continue returnData'), st1) =>
        paginate this method endpoint body limit fuel returnData' st1
    | (Threw e, st1) => (Threw e, st1)
    | (OutOfFuel, st1) => (OutOfFuel, st1)
    end.
Proof.
  simpl. unfold bind at 1.
  by destruct (iteration _ _ _ _ _ _ _) as [[[result|returnData']|e|] st1].
Qed.

(** The loop only ever moves the page counter forward, by at most one
    per request, and writes nothing else. *)
Lemma paginate_page fuel : ∀ returnData st (k : Z),
  qsObject st !! "page" = Some (JNum k) →
  ∃ more (b : Z),
    trace (paginate this method endpoint body limit fuel returnData st).2
      = trace st ++ more ∧
    0 ≤ b ≤ Z.of_nat (length more) ∧
    qsObject (paginate this method endpoint body limit fuel returnData st).2
      = <["page" := JNum (k + b)]> (qsObject st).
Proof.
  induction fuel as [|fuel IH]; intros returnData st k Hk.
  - exists [], 0. simpl. rewrite app_nil_r, Z.add_0_r, insert_id by done.
    split; [done|]. split; [lia|done].
  - rewrite paginate_unfold.
    destruct (iteration_page returnData st k Hk) as (more & b & Ht & Hb & Hq).
    destruct (iteration _ _ _ _ _ _ _) as [[[result|returnData']|e|] st1];
      simpl in *; try (by exists more, b).
    destruct (IH returnData' st1 (k + b)) as (more' & b' & Ht' & Hb' & Hq').
    { by rewrite Hq, lookup_insert_eq. }
    exists (more ++ more'), (b + b').
    rewrite Ht', Ht, Hq', Hq, insert_insert_eq, length_app, <- app_assoc.
    split; [done|]. split; [lia|]. by rewrite Z.add_assoc.
Qed.

Lemma iteration_trace returnData st credentials :
  getCredentials this "zammadApi" = Fulfilled credentials →
  trace (iteration this method endpoint body limit returnData st).2
    = trace st ++ [buildOptions credentials method endpoint body (qsObject st)].
Proof.
  intros Hc. rewrite iteration_unfold.
  rewrite (zammadApiRequest_unfold _ _ _ _ _ _ _ Hc). cbv zeta.
  destruct (helpers_request _ _ _) as [[responseData|error] w]; [|done].
  destruct (iterate responseData) as [items|]; [|done].
  by destruct (overLimit _ _).
Qed.

Lemma paginate_trace fuel returnData st credentials :
  getCredentials this "zammadApi" = Fulfilled credentials →
  ∃ more,
    trace (paginate this method endpoint body limit (S fuel) returnData st).2
      = trace st
          ++ buildOptions credentials method endpoint body (qsObject st) :: more.
Proof.
  intros Hc. rewrite paginate_unfold.
  pose proof (iteration_trace returnData st credentials Hc) as Ht.
  destruct (iteration _ _ _ _ _ _ _) as [[[result|returnData']|e|] st1] eqn:Hi;
    simpl in *; try (by exists []).
  assert (∃ more, trace (paginate this method endpoint body limit fuel returnData' st1).2
                    = trace st1 ++ more) as [more Hmore].
  { clear. revert returnData' st1. induction fuel as [|fuel IH]; intros rd st.
    - exists []. simpl. by rewrite app_nil_r.
    - rewrite paginate_unfold.
      destruct (zammadApiRequest_state (qsObject st) st) as [_ (more & Hm & _)].
      rewrite iteration_unfold.
      destruct (zammadApiRequest _ _ _ _ _ _) as [[responseData|e|] st1];
        simpl in *; try (by exists more).
      destruct (iterate responseData) as [items|]; [|by exists more].
      destruct (overLimit _ _); [by exists more|].
      case_bool_decide; [|by exists more].
      destruct (IH (rd ++ items) (bumped st1)) as [more' Hm'].
      exists (more ++ more'). rewrite Hm'. simpl. by rewrite Hm, app_assoc. }
  exists more. by rewrite Hmore, Ht, <- app_assoc.
Qed.
End Pagination.

(* ================================================================== *)
(** * The paginated fetcher *)
(* ================================================================== *)

Section Fetcher.
Context {W Node : Type}.
Context (this : IExecuteFunctions W Node).
Context (method endpoint : string) (body : IDataObject).
Implicit Types (st : State W) (returnData : list JVal).

Lemma zammadApiRequestAllItems_unfold limit fuel st :
  zammadApiRequestAllItems this method endpoint body limit fuel st
    = paginate this method endpoint body limit fuel [] (prepared st).
Proof. done. Qed.

(** C3. With a positive limit, a pass of the loop after which more
    than [limit] items are accumulated returns at once: the result is
    the first [limit] accumulated items, exactly [limit] of them, and
    the request of that pass is the last one handed to the transport.
    In particular, when the first page alone holds more than [limit]
    items (20 items for a limit of 10), the fetcher returns the first
    [limit] items of that page after exactly one request. *)
Theorem limit_truncates_and_returns (limit : Z) :
  0 < limit →
  (∀ fuel st responseData items st1,
     zammadApiRequest this method endpoint body
       (qsObject (prepared st)) (prepared st) = (Returned responseData, st1) →
     iterate responseData = Some items →
     limit < Z.of_nat (length items) →
     zammadApiRequestAllItems this method endpoint body limit (S fuel) st
       = (Returned (take (Z.to_nat limit) items), st1) ∧
     Z.of_nat (length (take (Z.to_nat limit) items)) = limit ∧
     ∃ options, trace st1 = trace st ++ [options]) ∧
  (∀ fuel returnData st responseData items st1,
     zammadApiRequest this method endpoint body (qsObject st) st
       = (Returned responseData, st1) →
     iterate responseData = Some items →
     limit < Z.of_nat (length (returnData ++ items)) →
     paginate this method endpoint body limit (S fuel) returnData st
       = (Returned (take (Z.to_nat limit) (returnData ++ items)), st1) ∧
     Z.of_nat (length (take (Z.to_nat limit) (returnData ++ items))) = limit ∧
     ∃ options, trace st1 = trace st ++ [options]).
Proof.
  intros Hpos.
  assert (∀ fuel returnData st responseData items st1,
     zammadApiRequest this method endpoint body (qsObject st) st
       = (Returned responseData, st1) →
     iterate responseData = Some items →
     limit < Z.of_nat (length (returnData ++ items)) →
     paginate this method endpoint body limit (S fuel) returnData st
       = (Returned (take (Z.to_nat limit) (returnData ++ items)), st1) ∧
     Z.of_nat (length (take (Z.to_nat limit) (returnData ++ items))) = limit ∧
     ∃ options, trace st1 = trace st ++ [options]) as Hloop.
  { intros fuel returnData st responseData items st1 Hreq Hit Hover.
    destruct (slice_prefix (returnData ++ items) limit Hpos Hover) as [Hs Hl].
    rewrite paginate_unfold, iteration_unfold, Hreq, Hit.
    rewrite overLimit_positive, bool_decide_eq_true_2 by done.
    rewrite <- Hs. split; [done|]. split; [done|].
    destruct (zammadApiRequest_returned _ _ _ _ _ _ _ _ Hreq)
      as (credentials & w & _ & _ & ->).
    by eexists. }
  split; [|exact Hloop].
  intros fuel st responseData items st1 Hreq Hit Hover.
  rewrite zammadApiRequestAllItems_unfold.
  apply (Hloop fuel [] (prepared st) responseData items st1 Hreq Hit Hover).
Qed.

(** C9. With a positive limit, a pass that fetches a page holding at
    least one item and brings the accumulated count to exactly
    [limit] neither returns nor truncates: the loop goes on with all
    the items accumulated and hands one more request to the
    transport.  A pass returns only when its page is empty, and the
    result is then everything accumulated, or when the accumulated
    count is strictly above [limit]. *)
Theorem limit_reached_exactly_continues (limit : Z) :
  0 < limit →
  (∀ returnData st responseData items st1,
     zammadApiRequest this method endpoint body (qsObject st) st
       = (Returned responseData, st1) →
     iterate responseData = Some items →
     items ≠ [] →
     Z.of_nat (length (returnData ++ items)) = limit →
     iteration this method endpoint body limit returnData st
       = (Returned (Continue (returnData ++ items)), bumped st1) ∧
     ∀ fuel, ∃ first second more,
       trace st1 = trace st ++ [first] ∧
       trace (paginate this method endpoint body limit (S (S fuel))
                returnData st).2
         = trace st ++ first :: second :: more) ∧
  (∀ returnData st result st',
     iteration this method endpoint body limit returnData st
       = (Returned (Return result), st') →
     ∃ responseData items st1,
       zammadApiRequest this method endpoint body (qsObject st) st
         = (Returned responseData, st1) ∧
       iterate responseData = Some items ∧
       ((items = [] ∧ result = returnData) ∨
        (limit < Z.of_nat (length (returnData ++ items)) ∧
         result = take (Z.to_nat limit) (returnData ++ items)))).
Proof.
  intros Hpos. split.
  - intros returnData st responseData items st1 Hreq Hit Hne Hcount.
    assert (iteration this method endpoint body limit returnData st
              = (Returned (Continue (returnData ++ items)), bumped st1)) as Hstep.
    { rewrite iteration_unfold, Hreq, Hit.
      rewrite overLimit_positive, bool_decide_eq_false_2 by lia.
      by rewrite bool_decide_eq_true_2. }
    split; [exact Hstep|]. intros fuel.
    destruct (zammadApiRequest_returned _ _ _ _ _ _ _ _ Hreq)
      as (credentials & w & Hc & _ & ->).
    destruct (paginate_trace this method endpoint body limit fuel
                (returnData ++ items)
                (bumped (sent (buildOptions credentials method endpoint body
                                 (qsObject st)) w st))
                credentials Hc) as [more Hmore].
    eexists _, _, more. split; [done|].
    rewrite paginate_unfold, Hstep, Hmore. simpl. by rewrite <- app_assoc.
  - intros returnData st result st'. rewrite iteration_unfold.
    destruct (zammadApiRequest _ _ _ _ _ _) as [[responseData|e|] st1] eqn:Hreq;
      [|done..].
    destruct (iterate responseData) as [items|] eqn:Hit; [|done].
    rewrite overLimit_positive by done. case_bool_decide as Hover.
    + intros [= <- <-]. exists responseData, items, st1.
      split; [done|]. split; [done|]. right. split; [done|].
      by destruct (slice_prefix (returnData ++ items) limit Hpos Hover).
    + case_bool_decide as Hne; [done|]. intros [= <- <-].
      exists responseData, items, st1. split; [done|]. split; [done|]. left.
      assert (items = []) as -> by (by destruct items; [|destruct Hne]).
      by rewrite app_nil_r.
Qed.

(** C2, as the code has it.  The paginated fetcher writes to the
    query-string object of its caller: whatever the outcome of the
    call, the object then holds [per_page] = 20 and [page] = [p], where
    [p] is at least 1 and exceeds 1 by at most the number of requests
    handed to the transport; every other key of the object is as the
    caller left it. *)
Theorem caller_qs_after_call (limit : Z) (fuel : nat) st :
  ∃ (p : Z) more,
    trace (zammadApiRequestAllItems this method endpoint body limit fuel st).2
      = trace st ++ more ∧
    1 ≤ p ≤ 1 + Z.of_nat (length more) ∧
    qsObject (zammadApiRequestAllItems this method endpoint body limit fuel st).2
      = <["page" := JNum p]> (<["per_page" := JNum 20]> (qsObject st)) ∧
    ∀ key, key ≠ "page" → key ≠ "per_page" →
      qsObject (zammadApiRequestAllItems this method endpoint body limit fuel st).2
        !! key = qsObject st !! key.
Proof.
  rewrite zammadApiRequestAllItems_unfold.
  destruct (paginate_page this method endpoint body limit fuel [] (prepared st) 1)
    as (more & b & Ht & Hb & Hq); [apply lookup_insert_eq|].
  exists (1 + b), more. split; [exact Ht|]. split; [lia|].
  assert (qsObject (paginate this method endpoint body limit fuel []
                      (prepared st)).2
          = <["page" := JNum (1 + b)]> (<["per_page" := JNum 20]> (qsObject st)))
    as Hfinal.
  { rewrite Hq. simpl. by rewrite insert_insert_eq. }
  split; [exact Hfinal|].
  intros key Hpage Hper. by rewrite Hfinal, !lookup_insert_ne.
Qed.
End Fetcher.

(* ================================================================== *)
(** * Pagination against a paged remote *)
(* ================================================================== *)

Lemma requestedPage_buildOptions (credentials : Zammad.Credentials)
    (method endpoint : string) (body qs : IDataObject) (k : Z) :
  qs !! "page" = Some (JNum k) →
  requestedPage (buildOptions credentials method endpoint body qs) = Some k.
Proof.
  intros Hk. unfold requestedPage.
  rewrite (proj2 (buildOptions_body_qs credentials method endpoint body qs)).
  case_decide as Hempty; [by rewrite Hempty in Hk | by rewrite Hk].
Qed.

Section PagedRemote.
Context {Node : Type} (node : Node) (credentials : Zammad.Credentials).
Context (method endpoint : string) (body : IDataObject).

Lemma pagedHost_request pages (st : State unit) (k : Z) :
  qsObject st !! "page" = Some (JNum k) →
  1 ≤ k →
  zammadApiRequest (pagedHost node credentials pages) method endpoint body
    (qsObject st) st
  = (Returned (JArr (default [] (pages !! Z.to_nat (k - 1)))),
     sent (buildOptions credentials method endpoint body (qsObject st)) tt st).
Proof.
  intros Hk Hpos. destruct st as [[] tr q]. simpl in *.
  rewrite (zammadApiRequest_unfold (pagedHost node credentials pages)
             _ _ _ _ _ credentials eq_refl).
  cbv zeta. simpl. unfold pagedRemote.
  rewrite (requestedPage_buildOptions _ _ _ _ _ k Hk).
  by rewrite decide_True by done.
Qed.

(** Against a remote holding [done ++ rest], a loop that is about to
    ask for the first page of [rest] fetches every page of [rest] and
    then the empty page after the last one. *)
Lemma paginate_pagedHost (rest : list (list JVal)) :
  ∀ (done : list (list JVal)) (returnData : list JVal) (st : State unit) (fuel : nat),
    Forall (λ page, page ≠ []) rest →
    qsObject st !! "page" = Some (JNum (Z.of_nat (length done) + 1)) →
    (length rest < fuel)%nat →
    paginate (pagedHost node credentials (done ++ rest)) method endpoint body 0
      fuel returnData st
    = (Returned (returnData ++ concat rest),
       {| world := tt;
          trace := trace st ++
            (pageRequest credentials method endpoint body (qsObject st)
               <$> seqZ (Z.of_nat (length done) + 1) (Z.of_nat (length rest) + 1));
          qsObject :=
            <["page" := JNum (Z.of_nat (length done) + Z.of_nat (length rest) + 2)]>
              (qsObject st) |}).
Proof.
  induction rest as [|page rest IH]; intros done returnData st fuel Hne Hk Hfuel.
  - destruct fuel as [|fuel]; [simpl in Hfuel; lia|].
    rewrite paginate_unfold, iteration_unfold.
    rewrite (pagedHost_request _ _ _ Hk) by lia.
    replace (Z.to_nat (Z.of_nat (length done) + 1 - 1)) with (length done) by lia.
    rewrite app_nil_r. rewrite lookup_ge_None_2 by lia.
    change (Z.of_nat (length (@nil (list JVal))) + 1) with 1.
    rewrite (seqZ_cons _ 1), seqZ_nil by lia.
    unfold bumped, sent, pageRequest. simpl.
    rewrite (insert_id (qsObject st) "page" _ Hk), Hk, !app_nil_r. simpl.
    do 3 f_equal. f_equal. lia.
  - destruct fuel as [|fuel]; [simpl in Hfuel; lia|].
    apply Forall_cons in Hne as [Hpage Hne].
    rewrite paginate_unfold, iteration_unfold.
    rewrite (pagedHost_request _ _ _ Hk) by lia.
    replace (Z.to_nat (Z.of_nat (length done) + 1 - 1)) with (length done) by lia.
    rewrite list_lookup_middle by done.
    cbn [default from_option iterate id]. rewrite overLimit_zero.
    rewrite bool_decide_eq_true_2 by done.
    rewrite (cons_middle page done rest), app_assoc.
    rewrite (IH (done ++ [page]) (returnData ++ page)
               (bumped (sent (buildOptions credentials method endpoint body
                                (qsObject st)) tt st)) fuel Hne).
    + unfold bumped, sent. cbn [world trace qsObject]. rewrite Hk.
      cbn [default from_option postIncrement id].
      rewrite (list_fmap_ext
                 (pageRequest credentials method endpoint body
                    (<["page" := JNum (Z.of_nat (length done) + 1 + 1)]>
                       (qsObject st)))
                 (pageRequest credentials method endpoint body (qsObject st)))
        by (intros i k _; unfold pageRequest; by rewrite insert_insert_eq).
      rewrite insert_insert_eq, length_app, length_cons.
      rewrite (seqZ_cons (Z.of_nat (length done) + 1)) by lia.
      rewrite fmap_cons, <- !app_assoc. cbn [app length concat].
      unfold pageRequest at 2.
      rewrite (insert_id (qsObject st) "page" _ Hk).
      replace (Z.succ (Z.of_nat (length done) + 1))
        with (Z.of_nat (length done + 1) + 1) by lia.
      replace (Z.pred (Z.of_nat (S (length rest)) + 1))
        with (Z.of_nat (length rest) + 1) by lia.
      do 3 f_equal. f_equal. lia.
    + unfold bumped, sent. cbn [world trace qsObject]. rewrite Hk.
      cbn [default from_option postIncrement].
      rewrite lookup_insert_eq, length_app. simpl. do 2 f_equal. lia.
    + simpl in Hfuel. lia.
Qed.
End PagedRemote.

Lemma requestedPage_pageRequest (credentials : Zammad.Credentials)
    (method endpoint : string) (body qs : IDataObject) (k : Z) :
  requestedPage (pageRequest credentials method endpoint body qs k) = Some k.
Proof. apply requestedPage_buildOptions, lookup_insert_eq. Qed.

(** C1, as the code has it.  Against a remote whose pages hold 20, 20
    and 5 items, the fetcher without a limit hands exactly four requests
    to the transport, for the pages 1, 2, 3 and 4: the loop goes on after
    the short third page and stops at the first empty page, the fourth.
    It returns the 45 items in page order. *)
Theorem three_pages_take_four_requests {Node : Type} (node : Node)
    (credentials : Zammad.Credentials) (method endpoint : string)
    (body qs : IDataObject) (p1 p2 p3 : list JVal) (fuel : nat) :
  length p1 = 20%nat → length p2 = 20%nat → length p3 = 5%nat →
  (4 ≤ fuel)%nat →
  ∃ st',
    zammadApiRequestAllItems (pagedHost node credentials [p1; p2; p3])
      method endpoint body 0 fuel (initial qs)
      = (Returned (p1 ++ p2 ++ p3), st') ∧
    length (p1 ++ p2 ++ p3) = 45%nat ∧
    trace st'
      = pageRequest credentials method endpoint body (<["per_page" := JNum 20]> qs)
          <$> [1; 2; 3; 4] ∧
    requestedPage <$> trace st' = [Some 1; Some 2; Some 3; Some 4].
Proof.
  intros H1 H2 H3 Hfuel.
  assert (Forall (λ page : list JVal, page ≠ []) [p1; p2; p3]) as Hne.
  { repeat constructor; intros ->; simpl in *; lia. }
  rewrite zammadApiRequestAllItems_unfold.
  change [p1; p2; p3] with ([] ++ [p1; p2; p3]) at 1.
  rewrite (paginate_pagedHost node credentials method endpoint body
             [p1; p2; p3] [] [] (prepared (initial qs)) fuel Hne);
    [|apply lookup_insert_eq|simpl; lia].
  cbn [concat app]. rewrite app_nil_r.
  eexists. split; [done|]. split.
  { rewrite !length_app. lia. }
  cbn [trace qsObject prepared initial length app].
  change (seqZ (Z.of_nat 0 + 1) (Z.of_nat 3 + 1)) with [1; 2; 3; 4].
  assert (∀ k,
    pageRequest credentials method endpoint body
      (<["page" := JNum 1]> (<["per_page" := JNum 20]> qs)) k
    = pageRequest credentials method endpoint body (<["per_page" := JNum 20]> qs) k)
    as Hreq.
  { intros k. unfold pageRequest. by rewrite insert_insert_eq. }
  cbn [fmap list_fmap]. rewrite !Hreq. split; [done|].
  by rewrite !requestedPage_pageRequest.
Qed.

Lemma three_pages_take_four_requests_witness :
  (length (numbered 0 20) = 20%nat ∧ length (numbered 20 20) = 20%nat ∧
   length (numbered 40 5) = 5%nat ∧ (4 ≤ 4)%nat) ∧
  ∃ st',
    zammadApiRequestAllItems (pagedHost tt tokenCredentials threePages)
      "GET" "/tickets" ∅ 0 4 (initial ∅)
      = (Returned (numbered 0 20 ++ numbered 20 20 ++ numbered 40 5), st') ∧
    length (numbered 0 20 ++ numbered 20 20 ++ numbered 40 5) = 45%nat ∧
    trace st'
      = pageRequest tokenCredentials "GET" "/tickets" ∅ (<["per_page" := JNum 20]> ∅)
          <$> [1; 2; 3; 4] ∧
    requestedPage <$> trace st' = [Some 1; Some 2; Some 3; Some 4].
Proof.
  split.
  - repeat split; reflexivity || lia.
  - apply (three_pages_take_four_requests tt tokenCredentials "GET" "/tickets" ∅ ∅
             (numbered 0 20) (numbered 20 20) (numbered 40 5) 4);
      reflexivity || lia.
Defined.

(** Against the pages of sizes 20, 20 and 5, no amount of fuel makes the
    fetcher return the 45 items after the three requests for the pages 1,
    2 and 3 only. *)
Lemma three_pages_not_three_requests :
  ¬ ∃ fuel,
      (zammadApiRequestAllItems (pagedHost tt tokenCredentials threePages)
         "GET" "/tickets" ∅ 0 fuel (initial ∅)).1
        = Returned (concat threePages) ∧
      requestedPage <$>
        trace (zammadApiRequestAllItems (pagedHost tt tokenCredentials threePages)
                 "GET" "/tickets" ∅ 0 fuel (initial ∅)).2
        = [Some 1; Some 2; Some 3].
Proof.
  intros [fuel [Hout Htrace]].
  destruct (decide (4 ≤ fuel)%nat) as [Hfuel|Hfuel].
  - rewrite zammadApiRequestAllItems_unfold in Htrace.
    change threePages with ([] ++ threePages) in Htrace.
    rewrite (paginate_pagedHost tt tokenCredentials "GET" "/tickets" ∅
               threePages [] [] (prepared (initial ∅)) fuel) in Htrace.
    + cbn [snd trace prepared initial app] in Htrace.
      apply (f_equal length) in Htrace.
      rewrite !length_fmap, length_seqZ in Htrace. simpl in Htrace. lia.
    + repeat constructor; done.
    + apply lookup_insert_eq.
    + simpl. lia.
  - destruct fuel as [|[|[|[|fuel]]]]; [..|lia];
      vm_compute in Hout; discriminate Hout.
Qed.

(** The caller passes an empty query-string object; after the call it
    holds [per_page] and [page]. *)
Lemma caller_qs_is_written :
  qsObject (zammadApiRequestAllItems (pagedHost tt tokenCredentials threePages)
              "GET" "/tickets" ∅ 0 4 (initial ∅)).2
    = {[ "per_page" := JNum 20; "page" := JNum 5 ]} ∧
  qsObject (zammadApiRequestAllItems (pagedHost tt tokenCredentials threePages)
              "GET" "/tickets" ∅ 0 4 (initial ∅)).2
    ≠ qsObject (initial ∅).
Proof.
  assert (qsObject (zammadApiRequestAllItems (pagedHost tt tokenCredentials threePages)
              "GET" "/tickets" ∅ 0 4 (initial ∅)).2
    = {[ "per_page" := JNum 20; "page" := JNum 5 ]}) as Hq by (by vm_compute).
  split; [exact Hq|]. rewrite Hq. intros Heq.
  apply (f_equal (λ m : IDataObject, m !! "page")) in Heq.
  vm_compute in Heq. discriminate Heq.
Qed.

Lemma limit_truncates_and_returns_witness :
  0 < 10 ∧
  (zammadApiRequest (pagedHost tt tokenCredentials threePages) "GET" "/tickets" ∅
     (qsObject (prepared (initial ∅))) (prepared (initial ∅))
     = (Returned (JArr (numbered 0 20)),
        sent (pageRequest tokenCredentials "GET" "/tickets" ∅
                (<["per_page" := JNum 20]> ∅) 1) tt (prepared (initial ∅))) ∧
   iterate (JArr (numbered 0 20)) = Some (numbered 0 20) ∧
   10 < Z.of_nat (length (numbered 0 20))) ∧
  (zammadApiRequestAllItems (pagedHost tt tokenCredentials threePages)
     "GET" "/tickets" ∅ 10 1 (initial ∅)
     = (Returned (take (Z.to_nat 10) (numbered 0 20)),
        sent (pageRequest tokenCredentials "GET" "/tickets" ∅
                (<["per_page" := JNum 20]> ∅) 1) tt (prepared (initial ∅))) ∧
   Z.of_nat (length (take (Z.to_nat 10) (numbered 0 20))) = 10 ∧
   ∃ options,
     trace (sent (pageRequest tokenCredentials "GET" "/tickets" ∅
                    (<["per_page" := JNum 20]> ∅) 1) tt (prepared (initial ∅)))
       = trace (initial ∅) ++ [options]) ∧
  (paginate (pagedHost tt tokenCredentials threePages) "GET" "/tickets" ∅ 10 1
     (numbered 0 5) (prepared (initial ∅))
     = (Returned (take (Z.to_nat 10) (numbered 0 5 ++ numbered 0 20)),
        sent (pageRequest tokenCredentials "GET" "/tickets" ∅
                (<["per_page" := JNum 20]> ∅) 1) tt (prepared (initial ∅))) ∧
   Z.of_nat (length (take (Z.to_nat 10) (numbered 0 5 ++ numbered 0 20))) = 10 ∧
   ∃ options,
     trace (sent (pageRequest tokenCredentials "GET" "/tickets" ∅
                    (<["per_page" := JNum 20]> ∅) 1) tt (prepared (initial ∅)))
       = trace (prepared (initial ∅)) ++ [options]).
Proof.
  assert (zammadApiRequest (pagedHost tt tokenCredentials threePages)
            "GET" "/tickets" ∅
            (qsObject (prepared (initial ∅))) (prepared (initial ∅))
          = (Returned (JArr (numbered 0 20)),
             sent (pageRequest tokenCredentials "GET" "/tickets" ∅
                     (<["per_page" := JNum 20]> ∅) 1) tt (prepared (initial ∅))))
    as Hreq by (vm_compute; reflexivity).
  split; [lia|]. split; [|split].
  - split; [exact Hreq|]. split; [reflexivity|]. vm_compute. reflexivity.
  - apply (proj1 (limit_truncates_and_returns
                    (pagedHost tt tokenCredentials threePages)
                    "GET" "/tickets" ∅ 10 ltac:(lia))
             0%nat (initial ∅) (JArr (numbered 0 20)) (numbered 0 20) _ Hreq).
    + reflexivity.
    + vm_compute. reflexivity.
  - apply (proj2 (limit_truncates_and_returns
                    (pagedHost tt tokenCredentials threePages)
                    "GET" "/tickets" ∅ 10 ltac:(lia))
             0%nat (numbered 0 5) (prepared (initial ∅))
             (JArr (numbered 0 20)) (numbered 0 20) _ Hreq).
    + reflexivity.
    + vm_compute. reflexivity.
Defined.

Lemma limit_reached_exactly_continues_witness :
  0 < 20 ∧
  (zammadApiRequest (pagedHost tt tokenCredentials threePages) "GET" "/tickets" ∅
     (qsObject (prepared (initial ∅))) (prepared (initial ∅))
     = (Returned (JArr (numbered 0 20)),
        sent (pageRequest tokenCredentials "GET" "/tickets" ∅
                (<["per_page" := JNum 20]> ∅) 1) tt (prepared (initial ∅))) ∧
   iterate (JArr (numbered 0 20)) = Some (numbered 0 20) ∧
   numbered 0 20 ≠ [] ∧
   Z.of_nat (length ([] ++ numbered 0 20)) = 20) ∧
  (iteration (pagedHost tt tokenCredentials threePages) "GET" "/tickets" ∅ 20 []
     (prepared (initial ∅))
     = (Returned (Continue ([] ++ numbered 0 20)),
        bumped (sent (pageRequest tokenCredentials "GET" "/tickets" ∅
                        (<["per_page" := JNum 20]> ∅) 1) tt (prepared (initial ∅)))) ∧
   ∀ fuel, ∃ first second more,
     trace (sent (pageRequest tokenCredentials "GET" "/tickets" ∅
                    (<["per_page" := JNum 20]> ∅) 1) tt (prepared (initial ∅)))
       = trace (prepared (initial ∅)) ++ [first] ∧
     trace (paginate (pagedHost tt tokenCredentials threePages) "GET" "/tickets" ∅
              20 (S (S fuel)) [] (prepared (initial ∅))).2
       = trace (prepared (initial ∅)) ++ first :: second :: more) ∧
  (iteration (pagedHost tt tokenCredentials []) "GET" "/tickets" ∅ 20 []
     (prepared (initial ∅))
     = (Returned (Return []),
        bumped (sent (pageRequest tokenCredentials "GET" "/tickets" ∅
                        (<["per_page" := JNum 20]> ∅) 1) tt (prepared (initial ∅)))) ∧
   ∃ responseData items st1,
     zammadApiRequest (pagedHost tt tokenCredentials []) "GET" "/tickets" ∅
       (qsObject (prepared (initial ∅))) (prepared (initial ∅))
       = (Returned responseData, st1) ∧
     iterate responseData = Some items ∧
     ((items = [] ∧ [] = @nil JVal) ∨
      (20 < Z.of_nat (length ([] ++ items)) ∧
       [] = take (Z.to_nat 20) ([] ++ items)))).
Proof.
  assert (zammadApiRequest (pagedHost tt tokenCredentials threePages)
            "GET" "/tickets" ∅
            (qsObject (prepared (initial ∅))) (prepared (initial ∅))
          = (Returned (JArr (numbered 0 20)),
             sent (pageRequest tokenCredentials "GET" "/tickets" ∅
                     (<["per_page" := JNum 20]> ∅) 1) tt (prepared (initial ∅))))
    as Hreq by (vm_compute; reflexivity).
  assert (numbered 0 20 ≠ []) as Hne by (vm_compute; discriminate).
  assert (iteration (pagedHost tt tokenCredentials []) "GET" "/tickets" ∅ 20 []
            (prepared (initial ∅))
          = (Returned (Return []),
             bumped (sent (pageRequest tokenCredentials "GET" "/tickets" ∅
                             (<["per_page" := JNum 20]> ∅) 1) tt
                       (prepared (initial ∅)))))
    as Hstop by (vm_compute; reflexivity).
  split; [lia|]. split; [|split].
  - split; [exact Hreq|]. split; [reflexivity|]. split; [exact Hne|].
    vm_compute. reflexivity.
  - apply (proj1 (limit_reached_exactly_continues
                    (pagedHost tt tokenCredentials threePages)
                    "GET" "/tickets" ∅ 20 ltac:(lia))
             [] (prepared (initial ∅)) (JArr (numbered 0 20)) (numbered 0 20) _ Hreq).
    + reflexivity.
    + exact Hne.
    + vm_compute. reflexivity.
  - split; [exact Hstop|].
    exact (proj2 (limit_reached_exactly_continues
                    (pagedHost tt tokenCredentials [])
                    "GET" "/tickets" ∅ 20 ltac:(lia))
             [] (prepared (initial ∅)) [] _ Hstop).
Defined.

Lemma caller_qs_after_call_witness :
  ∃ (p : Z) more,
    trace (zammadApiRequestAllItems (pagedHost tt tokenCredentials threePages)
             "GET" "/tickets" ∅ 0 4 (initial ∅)).2
      = trace (initial ∅) ++ more ∧
    1 ≤ p ≤ 1 + Z.of_nat (length more) ∧
    qsObject (zammadApiRequestAllItems (pagedHost tt tokenCredentials threePages)
                "GET" "/tickets" ∅ 0 4 (initial ∅)).2
      = <["page" := JNum p]> (<["per_page" := JNum 20]> (qsObject (initial ∅))) ∧
    ∀ key, key ≠ "page" → key ≠ "per_page" →
      qsObject (zammadApiRequestAllItems (pagedHost tt tokenCredentials threePages)
                  "GET" "/tickets" ∅ 0 4 (initial ∅)).2 !! key
        = qsObject (initial ∅) !! key.
Proof.
  exact (caller_qs_after_call (pagedHost tt tokenCredentials threePages)
           "GET" "/tickets" ∅ 0 4 (initial ∅)).
Defined.

(* ================================================================== *)
(** * Field selectors *)
(* ================================================================== *)

(** X1. [getCustomFields] keeps exactly the fields whose
    [created_by_id] is not 1, in the order of the input: a field is in
    the result if and only if it is in the input and was not created by
    user 1, the result is a sublist of the input, and filtering again
    changes nothing. *)
Theorem getCustomFields_spec (arr : list Zammad.Field) :
  (∀ i, i ∈ getCustomFields arr ↔ i ∈ arr ∧ Zammad.created_by_id i ≠ 1) ∧
  getCustomFields arr `sublist_of` arr ∧
  getCustomFields (getCustomFields arr) = getCustomFields arr.
Proof.
  unfold getCustomFields. split; [|split].
  - intros i. rewrite list_elem_of_filter. tauto.
  - apply sublist_filter.
  - by apply list_filter_filter_l.
Qed.

Lemma isTypeField_disjoint (r1 r2 : string) (arr : list Zammad.Field) :
  r1 ≠ r2 → isTypeField r1 (isTypeField r2 arr) = [].
Proof.
  intros Hne. unfold isTypeField. rewrite list_filter_filter.
  induction arr as [|i arr IH]; [done|].
  rewrite filter_cons_False; [done|]. intros [H1 H2]. congruence.
Qed.

Lemma filter_split_length {A} (P : A → Prop) `{!∀ x, Decision (P x)} (l : list A) :
  length l = (length (filter P l) + length (filter (λ x, ¬ P x) l))%nat.
Proof.
  by rewrite <- length_app, (Permutation_length (filter_app_complement P l)).
Qed.

(** X2. The four resource selectors split a field list without overlap:
    a field is selected by [isTypeField r] exactly when it is in the list
    and its [object] is [r]; selecting one resource from the selection of
    a different one gives nothing; and the four selections together with
    the fields of no known resource account for every entry of the list,
    once each. *)
Theorem resource_selectors_partition (arr : list Zammad.Field) :
  (∀ r i, i ∈ isTypeField r arr ↔ i ∈ arr ∧ Zammad.object i = r) ∧
  (∀ r1 r2, r1 ≠ r2 → isTypeField r1 (isTypeField r2 arr) = []) ∧
  length arr
    = (length (getGroupFields arr) + length (getOrganizationFields arr)
       + length (getUserFields arr) + length (getTicketFields arr)
       + length (otherFields arr))%nat.
Proof.
  split; [|split].
  - intros r i. unfold isTypeField. rewrite list_elem_of_filter. tauto.
  - intros r1 r2. apply isTypeField_disjoint.
  - unfold getGroupFields, getOrganizationFields, getUserFields,
      getTicketFields, otherFields, isTypeField.
    induction arr as [|i arr IH]; [done|].
    rewrite !filter_cons. simpl length. rewrite IH.
    repeat case_decide; simpl; try lia; exfalso; intuition congruence.
Qed.

Lemma resource_selectors_partition_witness :
  "Group" ≠ "User" ∧
  isTypeField "Group" (isTypeField "User" [usernameField; titleField; groupField])
    = [].
Proof.
  split; [discriminate|].
  apply (proj1 (proj2 (resource_selectors_partition
                          [usernameField; titleField; groupField]))).
  discriminate.
Defined.

(** X3. A per-resource custom-field selector keeps exactly the fields of
    its resource that were not created by user 1, and the order of the
    two filters does not matter: filtering custom fields first and the
    resource second gives the same list. *)
Theorem custom_selectors_spec (arr : list Zammad.Field) :
  (∀ i, i ∈ getGroupCustomFields arr
        ↔ i ∈ arr ∧ Zammad.object i = "Group" ∧ Zammad.created_by_id i ≠ 1) ∧
  (∀ i, i ∈ getOrganizationCustomFields arr
        ↔ i ∈ arr ∧ Zammad.object i = "Organization" ∧ Zammad.created_by_id i ≠ 1) ∧
  (∀ i, i ∈ getUserCustomFields arr
        ↔ i ∈ arr ∧ Zammad.object i = "User" ∧ Zammad.created_by_id i ≠ 1) ∧
  (∀ i, i ∈ getTicketCustomFields arr
        ↔ i ∈ arr ∧ Zammad.object i = "Ticket" ∧ Zammad.created_by_id i ≠ 1) ∧
  (∀ r, getCustomFields (isTypeField r arr) = isTypeField r (getCustomFields arr)).
Proof.
  assert (∀ r i, i ∈ getCustomFields (isTypeField r arr)
                 ↔ i ∈ arr ∧ Zammad.object i = r ∧ Zammad.created_by_id i ≠ 1)
    as Hmem.
  { intros r i. unfold getCustomFields, isTypeField.
    rewrite !list_elem_of_filter. tauto. }
  do 4 (split; [apply Hmem|]).
  intros r. unfold getCustomFields, isTypeField.
  rewrite !list_filter_filter. apply list_filter_iff. tauto.
Qed.

(** X4. Every organization that [isRelevantOrg] accepts is also accepted
    by [isRelevantGroup]; the two predicates differ exactly on an active
    record named "Zammad Foundation". *)
Theorem relevant_org_vs_group (i : Organization.t) :
  (isRelevantOrg i = true → isRelevantGroup i = true) ∧
  (isRelevantOrg i ≠ isRelevantGroup i
   ↔ Organization.name i = "Zammad Foundation" ∧ Organization.active i = true).
Proof.
  unfold isRelevantOrg, isRelevantGroup.
  destruct (String.eqb_spec (Organization.name i) "Zammad Foundation") as [->|Hne];
    destruct (Organization.active i); simpl; intuition congruence.
Qed.

(* ================================================================== *)
(** * Suffixes and customers *)
(* ================================================================== *)

Lemma string_app_nil_r (a : string) : a +:+ "" = a.
Proof. induction a as [|c a IH]; str_simpl; [done | by rewrite IH]. Qed.

Lemma endsWith_app (pre suffix : string) : endsWith (pre +:+ suffix) suffix = true.
Proof.
  unfold endsWith. rewrite string_length_app.
  destruct (decide _) as [_|]; [|lia].
  replace (String.length pre + String.length suffix - String.length suffix)%nat
    with (String.length pre + 0)%nat by lia.
  rewrite substring_skip_app, substring_whole. apply String.eqb_refl.
Qed.

Lemma endsWith_inv (s suffix : string) :
  endsWith s suffix = true → ∃ pre, s = pre +:+ suffix.
Proof.
  destruct (decide (suffix = "")) as [->|Hne].
  { intros _. exists s. by rewrite string_app_nil_r. }
  unfold endsWith. destruct (decide _) as [Hle|]; [|done].
  intros Heq%String.eqb_eq.
  destruct (occurrence_at suffix s (String.length s - String.length suffix) Hne Heq)
    as (a & b & Hab & Hlen).
  exists a. rewrite Hab. f_equal.
  assert (String.length b = 0)%nat as Hb.
  { apply (f_equal String.length) in Hab. rewrite !string_length_app in Hab. lia. }
  destruct b; [by rewrite string_app_nil_r | simpl in Hb; lia].
Qed.

(** X5. [isCustomer] accepts a user exactly when role 3 is among the
    user's roles and the e-mail address does not end in "@zammad.org"
    (the comparison is on the exact characters, so an address that is
    only that suffix is rejected too). *)
Theorem isCustomer_spec (user : User.t) :
  isCustomer user = true
  ↔ 3 ∈ User.role_ids user ∧ ∀ pre, User.email user ≠ pre +:+ "@zammad.org".
Proof.
  unfold isCustomer. rewrite andb_true_iff, bool_decide_eq_true, negb_true_iff.
  split; intros [Hrole Hmail]; (split; [done|]).
  - intros pre Heq. rewrite Heq, endsWith_app in Hmail. discriminate Hmail.
  - destruct (endsWith (User.email user) "@zammad.org") eqn:He; [|done].
    destruct (endsWith_inv _ _ He) as [pre Hpre]. by destruct (Hmail pre).
Qed.

(* ================================================================== *)
(** * More on the request descriptor *)
(* ================================================================== *)

Lemma buildOptions_auth (credentials : Zammad.Credentials)
    (method endpoint : string) (body qs : IDataObject) :
  let options := buildOptions credentials method endpoint body qs in
  Options.method options = method ∧ Options.json options = true ∧
  (Zammad.authType credentials = "basicAuth" →
   Options.auth options
     = Some (Zammad.username credentials, Zammad.password credentials) ∧
   Options.headers options = None) ∧
  (Zammad.authType credentials = "tokenAuth" →
   Options.headers options
     = Some {[ "Authorization" := "Token token=" +:+ Zammad.accessToken credentials ]} ∧
   Options.auth options = None) ∧
  (Zammad.authType credentials ≠ "basicAuth" →
   Zammad.authType credentials ≠ "tokenAuth" →
   Options.uri options = "" ∧ Options.auth options = None ∧
   Options.headers options = None ∧ Options.rejectUnauthorized options = None).
Proof.
  unfold buildOptions. cbv zeta.
  destruct (negb (truthy (JNum (keysLength body))));
    destruct (negb (truthy (JNum (keysLength qs))));
    destruct (String.eqb_spec (Zammad.authType credentials) "basicAuth") as [Hb|Hb];
    destruct (String.eqb_spec (Zammad.authType credentials) "tokenAuth") as [Ht|Ht];
    simpl; repeat split; try done; try congruence;
    intros; try congruence.
Qed.

Section MoreRequestProperties.
Context {W Node : Type}.
Implicit Types (this : IExecuteFunctions W Node) (st : State W).

Lemma zammadApiRequest_trace this method endpoint body qs st credentials :
  getCredentials this "zammadApi" = Fulfilled credentials →
  trace (zammadApiRequest this method endpoint body qs st).2
    = trace st ++ [buildOptions credentials method endpoint body qs].
Proof.
  intros Hc. rewrite (zammadApiRequest_unfold _ _ _ _ _ _ _ Hc). cbv zeta.
  by destruct (helpers_request _ _ _) as [[r|e] w].
Qed.

(** X6. The descriptor handed to the transport carries the credentials
    of one scheme only: for basic authentication the user name and
    password as [auth] and no headers, for token authentication the
    header [Authorization: Token token=<accessToken>] and no [auth].  In
    both cases the method is the caller's and [json] is on. *)
Theorem request_auth_is_exclusive this method endpoint body qs st credentials :
  getCredentials this "zammadApi" = Fulfilled credentials →
  ∃ options,
    trace (zammadApiRequest this method endpoint body qs st).2
      = trace st ++ [options] ∧
    Options.method options = method ∧ Options.json options = true ∧
    (Zammad.authType credentials = "basicAuth" →
     Options.auth options
       = Some (Zammad.username credentials, Zammad.password credentials) ∧
     Options.headers options = None) ∧
    (Zammad.authType credentials = "tokenAuth" →
     Options.headers options
       = Some {[ "Authorization" :=
                   "Token token=" +:+ Zammad.accessToken credentials ]} ∧
     Options.auth options = None).
Proof.
  intros Hc. exists (buildOptions credentials method endpoint body qs).
  split; [by apply zammadApiRequest_trace|].
  destruct (buildOptions_auth credentials method endpoint body qs)
    as (Hm & Hj & Hb & Ht & _).
  by repeat split; try apply Hb; try apply Ht.
Qed.

(** X7. Credentials whose [authType] is neither "basicAuth" nor
    "tokenAuth" do not stop the call: the request still goes to the
    transport, with an empty URL, no credentials of either scheme and no
    setting for certificate verification. *)
Theorem request_with_unknown_authType this method endpoint body qs st credentials :
  getCredentials this "zammadApi" = Fulfilled credentials →
  Zammad.authType credentials ≠ "basicAuth" →
  Zammad.authType credentials ≠ "tokenAuth" →
  ∃ options,
    trace (zammadApiRequest this method endpoint body qs st).2
      = trace st ++ [options] ∧
    Options.uri options = "" ∧ Options.auth options = None ∧
    Options.headers options = None ∧ Options.rejectUnauthorized options = None.
Proof.
  intros Hc Hb Ht. exists (buildOptions credentials method endpoint body qs).
  split; [by apply zammadApiRequest_trace|].
  by apply (buildOptions_auth credentials method endpoint body qs).
Qed.

(** X8. When the credential lookup fails, [zammadApiRequest] throws the
    failure of the lookup as it is and hands nothing to the transport.
    The paginated fetcher fails the same way on its first pass, but has
    by then already written [per_page] = 20 and [page] = 1 into the
    query-string object of its caller. *)
Theorem credential_failure_propagates this method endpoint body qs limit fuel st e :
  getCredentials this "zammadApi" = Rejected e →
  zammadApiRequest this method endpoint body qs st = (Threw (HostError e), st) ∧
  zammadApiRequestAllItems this method endpoint body limit (S fuel) st
    = (Threw (HostError e), prepared st).
Proof.
  intros Hc.
  assert (∀ q s, zammadApiRequest this method endpoint body q s
                 = (Threw (HostError e), s)) as Hreq.
  { intros q s. unfold zammadApiRequest. by rewrite Hc. }
  split; [apply Hreq|].
  by rewrite zammadApiRequestAllItems_unfold, paginate_unfold, iteration_unfold, Hreq.
Qed.

(** X9. [getAllFields] makes one GET request to
    [/object_manager_attributes] without body and without query
    parameters, and its outcome is that of the transport: the response as
    it came when the request is fulfilled, and what the catch block of
    [zammadApiRequest] throws when it is rejected. *)
Theorem getAllFields_request this st credentials :
  getCredentials this "zammadApi" = Fulfilled credentials →
  ∃ options w,
    (getAllFields this st).2 = sent options w st ∧
    Options.method options = "GET" ∧
    Options.body options = None ∧ Options.qs options = None ∧
    (Zammad.authType credentials = "basicAuth" ∨
     Zammad.authType credentials = "tokenAuth" →
     Options.uri options
       = tolerateTrailingSlash (Zammad.baseUrl credentials)
           +:+ "/api/v1/object_manager_attributes") ∧
    (∀ response,
       helpers_request this options (world st) = (Fulfilled response, w) →
       (getAllFields this st).1 = Returned response) ∧
    (∀ error,
       helpers_request this options (world st) = (Rejected error, w) →
       (getAllFields this st).1 = Threw (catchHandler (getNode this) error)).
Proof.
  intros Hc. unfold getAllFields.
  rewrite (zammadApiRequest_unfold _ _ _ _ _ _ _ Hc). cbv zeta.
  destruct (helpers_request _ _ _) as [settled w] eqn:Hr.
  exists (buildOptions credentials "GET" "/object_manager_attributes" ∅ ∅), w.
  split; [done|].
  destruct (buildOptions_body_qs credentials "GET" "/object_manager_attributes" ∅ ∅)
    as [Hbody Hqs].
  rewrite decide_True in Hbody, Hqs by done.
  split; [apply buildOptions_auth|]. split; [done|]. split; [done|].
  split; [intros Hauth; by apply buildOptions_uri|].
  split; intros r Heq; rewrite Hr in Heq; by injection Heq as ->.
Qed.
End MoreRequestProperties.

(** X10. A trailing slash on the base URL makes no difference: for a
    base URL [url] that does not itself end in a slash, credentials with
    base URL [url ++ "/"] give the same request descriptor as credentials
    with base URL [url]. *)
Theorem trailing_slash_is_tolerated (credentials : Zammad.Credentials)
    (url method endpoint : string) (body qs : IDataObject) :
  (∀ pre, url ≠ pre +:+ "/") →
  buildOptions (withBaseUrl credentials (url +:+ "/")) method endpoint body qs
    = buildOptions (withBaseUrl credentials url) method endpoint body qs.
Proof.
  intros Hno. unfold buildOptions, withBasicAuth, withTokenAuth. simpl.
  rewrite tolerateTrailingSlash_app.
  assert (tolerateTrailingSlash url = url) as ->; [|done].
  unfold tolerateTrailingSlash.
  destruct (endsWith url "/") eqn:He; [|done].
  destruct (endsWith_inv _ _ He) as [pre Hpre]. by destruct (Hno pre).
Qed.

(* ================================================================== *)
(** * More on the paginated fetcher *)
(* ================================================================== *)

Lemma pageRequest_prepared (credentials : Zammad.Credentials)
    (method endpoint : string) (body qs : IDataObject) (v : JVal) (ks : list Z) :
  pageRequest credentials method endpoint body (<["page" := v]> qs) <$> ks
    = pageRequest credentials method endpoint body qs <$> ks.
Proof.
  apply list_fmap_ext. intros i k _. unfold pageRequest.
  by rewrite insert_insert_eq.
Qed.

(** X11. Against a remote that holds any number of non-empty pages and
    answers with an empty list beyond the last one, the fetcher without a
    limit returns the items of all pages in page order.  For [n] pages it
    hands [n + 1] requests to the transport, for the pages 1 to [n + 1],
    each with [per_page] = 20, and leaves [page] = [n + 2] in the
    query-string object of the caller. *)
Theorem all_pages_are_fetched {Node : Type} (node : Node)
    (credentials : Zammad.Credentials) (method endpoint : string)
    (body qs : IDataObject) (pages : list (list JVal)) (fuel : nat) :
  Forall (λ page, page ≠ []) pages →
  (length pages < fuel)%nat →
  zammadApiRequestAllItems (pagedHost node credentials pages)
    method endpoint body 0 fuel (initial qs)
  = (Returned (concat pages),
     {| world := tt;
        trace :=
          pageRequest credentials method endpoint body (<["per_page" := JNum 20]> qs)
            <$> seqZ 1 (Z.of_nat (length pages) + 1);
        qsObject :=
          <["page" := JNum (Z.of_nat (length pages) + 2)]>
            (<["per_page" := JNum 20]> qs) |}).
Proof.
  intros Hne Hfuel. rewrite zammadApiRequestAllItems_unfold.
  change pages with ([] ++ pages) at 1.
  rewrite (paginate_pagedHost node credentials method endpoint body
             pages [] [] (prepared (initial qs)) fuel Hne);
    [|apply lookup_insert_eq|done].
  cbn [prepared initial trace qsObject world length app].
  by rewrite pageRequest_prepared, insert_insert_eq.
Qed.

Lemma all_pages_are_fetched_witness :
  (Forall (λ page : list JVal, page ≠ []) threePages ∧
   (length threePages < 4)%nat) ∧
  zammadApiRequestAllItems (pagedHost tt tokenCredentials threePages)
    "GET" "/tickets" ∅ 0 4 (initial ∅)
  = (Returned (concat threePages),
     {| world := tt;
        trace :=
          pageRequest tokenCredentials "GET" "/tickets" ∅ (<["per_page" := JNum 20]> ∅)
            <$> seqZ 1 (Z.of_nat (length threePages) + 1);
        qsObject :=
          <["page" := JNum (Z.of_nat (length threePages) + 2)]>
            (<["per_page" := JNum 20]> ∅) |}).
Proof.
  assert (Forall (λ page : list JVal, page ≠ []) threePages) as Hne
    by (repeat constructor; discriminate).
  split; [split; [exact Hne | simpl; lia]|].
  apply (all_pages_are_fetched tt tokenCredentials "GET" "/tickets" ∅ ∅
           threePages 4 Hne).
  simpl. lia.
Defined.

Section LimitedPagedRemote.
Context {Node : Type} (node : Node) (credentials : Zammad.Credentials).
Context (method endpoint : string) (body : IDataObject) (limit : Z).

Lemma paginate_pagedHost_limit (rest : list (list JVal)) :
  ∀ (done : list (list JVal)) (returnData : list JVal) (st : State unit) (fuel : nat),
    0 < limit →
    Forall (λ page, page ≠ []) rest →
    qsObject st !! "page" = Some (JNum (Z.of_nat (length done) + 1)) →
    (length rest < fuel)%nat →
    Z.of_nat (length returnData) ≤ limit →
    (paginate (pagedHost node credentials (done ++ rest)) method endpoint body
       limit fuel returnData st).1
    = Returned (take (Z.to_nat limit) (returnData ++ concat rest)).
Proof.
  induction rest as [|page rest IH];
    intros done returnData st fuel Hpos Hne Hk Hfuel Hacc.
  - destruct fuel as [|fuel]; [simpl in Hfuel; lia|].
    rewrite paginate_unfold, iteration_unfold.
    rewrite (pagedHost_request _ _ _ _ _ _ _ _ Hk) by lia.
    replace (Z.to_nat (Z.of_nat (length done) + 1 - 1)) with (length done) by lia.
    rewrite app_nil_r. rewrite lookup_ge_None_2 by lia.
    cbn [default from_option iterate id concat].
    rewrite overLimit_positive, bool_decide_eq_false_2 by (rewrite ?app_nil_r; lia).
    rewrite bool_decide_eq_false_2 by (by intros H).
    cbn [fst]. rewrite !app_nil_r, take_ge by lia. done.
  - destruct fuel as [|fuel]; [simpl in Hfuel; lia|].
    apply Forall_cons in Hne as [Hpage Hne].
    rewrite paginate_unfold, iteration_unfold.
    rewrite (pagedHost_request _ _ _ _ _ _ _ _ Hk) by lia.
    replace (Z.to_nat (Z.of_nat (length done) + 1 - 1)) with (length done) by lia.
    rewrite list_lookup_middle by done.
    cbn [default from_option iterate id concat].
    rewrite overLimit_positive by done.
    case_bool_decide as Hover.
    + cbn [fst].
      destruct (slice_prefix (returnData ++ page) limit Hpos Hover) as [-> _].
      rewrite app_assoc, (take_app_le (returnData ++ page)); [done|]. lia.
    + rewrite bool_decide_eq_true_2 by done.
      rewrite (cons_middle page done rest), (app_assoc done).
      rewrite (IH (done ++ [page]) (returnData ++ page)); try done.
      * by rewrite app_assoc.
      * unfold bumped, sent. cbn [world trace qsObject]. rewrite Hk.
        cbn [default from_option postIncrement id].
        rewrite lookup_insert_eq, length_app. simpl. do 2 f_equal. lia.
      * simpl in Hfuel. lia.
      * lia.
Qed.

(** X12. Against a remote that holds non-empty pages, the fetcher with
    a positive limit returns the first [limit] items of the whole
    collection in page order, and the whole collection when it holds no
    more than [limit] items. *)
Theorem limited_fetch_is_a_prefix (qs : IDataObject) (pages : list (list JVal))
    (fuel : nat) :
  0 < limit →
  Forall (λ page, page ≠ []) pages →
  (length pages < fuel)%nat →
  (zammadApiRequestAllItems (pagedHost node credentials pages)
     method endpoint body limit fuel (initial qs)).1
  = Returned (take (Z.to_nat limit) (concat pages)) ∧
  (Z.of_nat (length (concat pages)) ≤ limit →
   take (Z.to_nat limit) (concat pages) = concat pages).
Proof.
  intros Hpos Hne Hfuel. split.
  - rewrite zammadApiRequestAllItems_unfold.
    change pages with ([] ++ pages) at 1.
    rewrite (paginate_pagedHost_limit pages [] [] (prepared (initial qs)) fuel);
      try done; [apply lookup_insert_eq | simpl; lia].
  - intros Hle. apply take_ge. lia.
Qed.
End LimitedPagedRemote.

Lemma limited_fetch_is_a_prefix_witness :
  (0 < 30 ∧ Forall (λ page : list JVal, page ≠ []) threePages ∧
   (length threePages < 4)%nat) ∧
  (zammadApiRequestAllItems (pagedHost tt tokenCredentials threePages)
     "GET" "/tickets" ∅ 30 4 (initial ∅)).1
  = Returned (take (Z.to_nat 30) (concat threePages)).
Proof.
  assert (Forall (λ page : list JVal, page ≠ []) threePages) as Hne
    by (repeat constructor; discriminate).
  split; [split; [lia | split; [exact Hne | simpl; lia]]|].
  apply (limited_fetch_is_a_prefix tt tokenCredentials "GET" "/tickets" ∅ 30 ∅
           threePages 4); [lia | exact Hne | simpl; lia].
Defined.

Section MoreFetcherProperties.
Context {W Node : Type}.
Context (this : IExecuteFunctions W Node).
Context (method endpoint : string) (body : IDataObject).
Implicit Types (st : State W) (returnData : list JVal).

Lemma paginate_within_limit (limit : Z) (fuel : nat) :
  0 < limit →
  ∀ returnData st result st',
    Z.of_nat (length returnData) ≤ limit →
    paginate this method endpoint body limit fuel returnData st
      = (Returned result, st') →
    Z.of_nat (length result) ≤ limit.
Proof.
  intros Hpos. induction fuel as [|fuel IH]; intros returnData st result st' Hacc;
    [done|].
  rewrite paginate_unfold, iteration_unfold.
  destruct (zammadApiRequest _ _ _ _ _ _) as [[responseData|e|] st1]; [|done..].
  destruct (iterate responseData) as [items|]; [|done].
  rewrite overLimit_positive by done. case_bool_decide as Hover.
  - intros [= <- _].
    destruct (slice_prefix (returnData ++ items) limit Hpos Hover) as [_ Hlen]. lia.
  - case_bool_decide.
    + apply IH. lia.
    + intros [= <- _]. lia.
Qed.

(** X13. With a positive limit the fetcher never returns more than
    [limit] items, whatever the transport answers. *)
Theorem limited_fetch_respects_limit (limit : Z) (fuel : nat) st result st' :
  0 < limit →
  zammadApiRequestAllItems this method endpoint body limit fuel st
    = (Returned result, st') →
  Z.of_nat (length result) ≤ limit.
Proof.
  intros Hpos. rewrite zammadApiRequestAllItems_unfold.
  apply paginate_within_limit; [done | simpl; lia].
Qed.

(** X14. A negative limit is not treated as "no limit": the first pass
    already returns, after a single request, with the first page cut by
    [-limit] items at its end (and with nothing when the page holds no
    more than [-limit] items). *)
Theorem negative_limit_cuts_first_page (limit : Z) (fuel : nat) st
    responseData items st1 :
  limit < 0 →
  zammadApiRequest this method endpoint body
    (qsObject (prepared st)) (prepared st) = (Returned responseData, st1) →
  iterate responseData = Some items →
  zammadApiRequestAllItems this method endpoint body limit (S fuel) st
    = (Returned (take (length items - Z.to_nat (- limit)) items), st1) ∧
  ∃ options, trace st1 = trace st ++ [options].
Proof.
  intros Hneg Hreq Hit.
  rewrite zammadApiRequestAllItems_unfold, paginate_unfold, iteration_unfold.
  rewrite Hreq, Hit. cbn [app].
  unfold overLimit. cbn [truthy].
  rewrite (proj2 (Z.eqb_neq limit 0)) by lia.
  rewrite bool_decide_eq_true_2 by lia. cbn [negb andb].
  split.
  - do 2 f_equal. unfold slice.
    destruct (decide (0 < 0)); [lia|]. destruct (decide (limit < 0)); [|lia].
    rewrite Z.min_l by lia. change (Z.to_nat 0) with 0%nat. rewrite drop_0.
    f_equal. lia.
  - destruct (zammadApiRequest_returned _ _ _ _ _ _ _ _ Hreq)
      as (credentials & w & _ & _ & ->).
    by eexists.
Qed.

(** X15. A rejected page request ends the fetch: the pass throws what
    the catch block of [zammadApiRequest] throws for the rejection, the
    items accumulated so far are not returned, and no further request is
    made. *)
Theorem rejected_page_aborts_fetch (limit : Z) (fuel : nat) returnData st
    credentials error w :
  getCredentials this "zammadApi" = Fulfilled credentials →
  helpers_request this
    (buildOptions credentials method endpoint body (qsObject st)) (world st)
    = (Rejected error, w) →
  paginate this method endpoint body limit (S fuel) returnData st
    = (Threw (catchHandler (getNode this) error),
       sent (buildOptions credentials method endpoint body (qsObject st)) w st).
Proof.
  intros Hc Hr.
  rewrite paginate_unfold, iteration_unfold.
  rewrite (zammadApiRequest_unfold _ _ _ _ _ _ _ Hc). cbv zeta.
  by rewrite Hr.
Qed.

(** X16. A response that is neither an array nor a string cannot be
    spread: the pass throws a TypeError right after its request,
    whatever was accumulated before. *)
Theorem non_iterable_response_faults (limit : Z) (fuel : nat) returnData st
    responseData st1 :
  zammadApiRequest this method endpoint body (qsObject st) st
    = (Returned responseData, st1) →
  (∀ xs, responseData ≠ JArr xs) →
  (∀ s, responseData ≠ JStr s) →
  paginate this method endpoint body limit (S fuel) returnData st
    = (Threw TypeError, st1).
Proof.
  intros Hreq Harr Hstr.
  rewrite paginate_unfold, iteration_unfold, Hreq.
  destruct responseData as [| |b|n|s|xs|o]; try done.
  - by destruct (Hstr s).
  - by destruct (Harr xs).
Qed.

Lemma paginate_requests (limit : Z) (credentials : Zammad.Credentials) (fuel : nat) :
  getCredentials this "zammadApi" = Fulfilled credentials →
  ∀ returnData st (k : Z),
    qsObject st !! "page" = Some (JNum k) →
    ∃ n : nat,
      (n ≤ fuel)%nat ∧
      trace (paginate this method endpoint body limit fuel returnData st).2
        = trace st ++
            (pageRequest credentials method endpoint body (qsObject st)
               <$> seqZ k (Z.of_nat n)).
Proof.
  intros Hc. induction fuel as [|fuel IH]; intros returnData st k Hk.
  - exists 0%nat. split; [done|]. simpl. by rewrite app_nil_r.
  - rewrite paginate_unfold.
    pose proof (iteration_trace this method endpoint body limit returnData st
                  credentials Hc) as Ht.
    assert (buildOptions credentials method endpoint body (qsObject st)
            = pageRequest credentials method endpoint body (qsObject st) k) as Hfirst.
    { unfold pageRequest. by rewrite insert_id. }
    assert (trace st ++ [buildOptions credentials method endpoint body (qsObject st)]
            = trace st ++ (pageRequest credentials method endpoint body (qsObject st)
                             <$> seqZ k (Z.of_nat 1))) as Hone
      by (by rewrite Hfirst).
    destruct (iteration _ _ _ _ _ _ _) as [[[result|returnData']|e|] st1] eqn:Hi;
      cbn [snd] in *; try (exists 1%nat; split; [lia|]; by rewrite Ht, Hone).
    rewrite iteration_unfold in Hi.
    destruct (zammadApiRequest_state this method endpoint body (qsObject st) st)
      as [Hqs _].
    destruct (zammadApiRequest _ _ _ _ _ _) as [[responseData|e|] st0]; [|done..].
    destruct (iterate responseData) as [items|]; [|done].
    destruct (overLimit _ _); [done|].
    case_bool_decide; [|done]. injection Hi as <- <-.
    cbn [snd] in Hqs.
    destruct (IH (returnData ++ items) (bumped st0) (k + 1)) as (n & Hn & Htr).
    { unfold bumped. cbn [qsObject]. rewrite Hqs, Hk. apply lookup_insert_eq. }
    exists (S n). split; [lia|]. rewrite Htr, Ht.
    unfold bumped. cbn [qsObject]. rewrite Hqs, Hk.
    cbn [default from_option postIncrement id].
    rewrite pageRequest_prepared, <- app_assoc.
    rewrite (seqZ_cons k (Z.of_nat (S n))) by lia.
    rewrite fmap_cons, <- Hfirst. cbn [app].
    replace (Z.pred (Z.of_nat (S n))) with (Z.of_nat n) by lia.
    by replace (Z.succ k) with (k + 1) by lia.
Qed.

(** X17. The requests of one fetch are numbered without gaps: whatever
    the transport answers and however the fetch ends, the requests handed
    to the transport are the requests for the pages 1, 2, ..., [n] in
    that order, each carrying [per_page] = 20 and the other query
    parameters of the caller, for some [n] not above the number of
    passes allowed. *)
Theorem requests_are_numbered_from_one (limit : Z) (fuel : nat) st credentials :
  getCredentials this "zammadApi" = Fulfilled credentials →
  ∃ n : nat,
    (n ≤ fuel)%nat ∧
    trace (zammadApiRequestAllItems this method endpoint body limit fuel st).2
      = trace st ++
          (pageRequest credentials method endpoint body
             (<["per_page" := JNum 20]> (qsObject st))
             <$> seqZ 1 (Z.of_nat n)).
Proof.
  intros Hc. rewrite zammadApiRequestAllItems_unfold.
  destruct (paginate_requests limit credentials fuel Hc [] (prepared st) 1)
    as (n & Hn & Ht); [apply lookup_insert_eq|].
  exists n. split; [done|]. rewrite Ht. cbn [prepared trace qsObject].
  by rewrite pageRequest_prepared.
Qed.
End MoreFetcherProperties.

Lemma paginate_constantHost {Node : Type} (node : Node)
    (credentials : Zammad.Credentials) (method endpoint : string)
    (body : IDataObject) (items : list JVal) (fuel : nat) :
  items ≠ [] →
  ∀ returnData (st : State unit),
    (paginate (constantHost node credentials (JArr items)) method endpoint body 0
       fuel returnData st).1 = OutOfFuel ∧
    length (trace (paginate (constantHost node credentials (JArr items))
                     method endpoint body 0 fuel returnData st).2)
      = (length (trace st) + fuel)%nat.
Proof.
  intros Hne. induction fuel as [|fuel IH]; intros returnData st.
  - simpl. split; [done | lia].
  - rewrite paginate_unfold, iteration_unfold.
    rewrite (zammadApiRequest_unfold (constantHost node credentials (JArr items))
               _ _ _ _ _ credentials eq_refl).
    cbv zeta. cbn [helpers_request constantHost iterate].
    rewrite overLimit_zero, bool_decide_eq_true_2 by done.
    destruct (IH (returnData ++ items)
                (bumped (sent (buildOptions credentials method endpoint body
                                 (qsObject st)) (world st) st))) as [Hout Hlen].
    split; [exact Hout|]. rewrite Hlen. cbn [bumped sent trace].
    rewrite length_app. simpl. lia.
Qed.

(** X18. Without a limit the fetch only ends on an empty page: against a
    transport that answers every request with the same non-empty array
    (a remote that ignores the [page] parameter), no number of passes
    makes the fetcher return; every pass allowed is spent on one more
    request. *)
Theorem unlimited_fetch_needs_an_empty_page {Node : Type} (node : Node)
    (credentials : Zammad.Credentials) (method endpoint : string)
    (body qs : IDataObject) (items : list JVal) (fuel : nat) :
  items ≠ [] →
  (zammadApiRequestAllItems (constantHost node credentials (JArr items))
     method endpoint body 0 fuel (initial qs)).1 = OutOfFuel ∧
  length (trace (zammadApiRequestAllItems
                   (constantHost node credentials (JArr items))
                   method endpoint body 0 fuel (initial qs)).2) = fuel.
Proof.
  intros Hne. rewrite zammadApiRequestAllItems_unfold.
  by destruct (paginate_constantHost node credentials method endpoint body items
                 fuel Hne [] (prepared (initial qs))) as [-> ->].
Qed.

(* ================================================================== *)
(** * Instances *)
(* ================================================================== *)

Lemma https_h_has_no_trailing_slash : ∀ pre, "https://h" ≠ pre +:+ "/".
Proof.
  intros pre Heq.
  assert (endsWith "https://h" "/" = true) as He
    by (rewrite Heq; apply endsWith_app).
  vm_compute in He. discriminate He.
Qed.

Lemma request_auth_is_exclusive_witness :
  ∃ options,
    trace (zammadApiRequest (pagedHost tt basicCredentials threePages)
             "GET" "/tickets" ∅ ∅ (initial ∅)).2 = trace (initial ∅) ++ [options] ∧
    Options.method options = "GET" ∧ Options.json options = true ∧
    (Zammad.authType basicCredentials = "basicAuth" →
     Options.auth options = Some ("agent", "pw") ∧ Options.headers options = None) ∧
    (Zammad.authType basicCredentials = "tokenAuth" →
     Options.headers options
       = Some {[ "Authorization" := "Token token=" +:+ "" ]} ∧
     Options.auth options = None).
Proof.
  exact (request_auth_is_exclusive (pagedHost tt basicCredentials threePages)
           "GET" "/tickets" ∅ ∅ (initial ∅) basicCredentials eq_refl).
Defined.

Lemma request_with_unknown_authType_witness :
  (Zammad.authType unknownCredentials ≠ "basicAuth" ∧
   Zammad.authType unknownCredentials ≠ "tokenAuth") ∧
  ∃ options,
    trace (zammadApiRequest (pagedHost tt unknownCredentials threePages)
             "GET" "/tickets" ∅ ∅ (initial ∅)).2 = trace (initial ∅) ++ [options] ∧
    Options.uri options = "" ∧ Options.auth options = None ∧
    Options.headers options = None ∧ Options.rejectUnauthorized options = None.
Proof.
  split; [split; discriminate|].
  apply (request_with_unknown_authType (pagedHost tt unknownCredentials threePages)
           "GET" "/tickets" ∅ ∅ (initial ∅) unknownCredentials eq_refl);
    discriminate.
Defined.

Lemma credential_failure_propagates_witness :
  zammadApiRequest (lockedHost tt (JStr "no credentials") threePages)
    "GET" "/tickets" ∅ ∅ (initial ∅)
    = (Threw (HostError (JStr "no credentials")), initial ∅) ∧
  zammadApiRequestAllItems (lockedHost tt (JStr "no credentials") threePages)
    "GET" "/tickets" ∅ 0 1 (initial ∅)
    = (Threw (HostError (JStr "no credentials")), prepared (initial ∅)).
Proof.
  exact (credential_failure_propagates
           (lockedHost tt (JStr "no credentials") threePages)
           "GET" "/tickets" ∅ ∅ 0 0 (initial ∅) (JStr "no credentials") eq_refl).
Defined.

Lemma getAllFields_request_witness :
  ∃ options w,
    (getAllFields (pagedHost tt tokenCredentials threePages) (initial ∅)).2
      = sent options w (initial ∅) ∧
    Options.method options = "GET" ∧
    Options.body options = None ∧ Options.qs options = None ∧
    (Zammad.authType tokenCredentials = "basicAuth" ∨
     Zammad.authType tokenCredentials = "tokenAuth" →
     Options.uri options
       = tolerateTrailingSlash "https://h/" +:+ "/api/v1/object_manager_attributes") ∧
    (∀ response,
       helpers_request (pagedHost tt tokenCredentials threePages) options tt
         = (Fulfilled response, w) →
       (getAllFields (pagedHost tt tokenCredentials threePages) (initial ∅)).1
         = Returned response) ∧
    (∀ error,
       helpers_request (pagedHost tt tokenCredentials threePages) options tt
         = (Rejected error, w) →
       (getAllFields (pagedHost tt tokenCredentials threePages) (initial ∅)).1
         = Threw (catchHandler tt error)).
Proof.
  exact (getAllFields_request (pagedHost tt tokenCredentials threePages)
           (initial ∅) tokenCredentials eq_refl).
Defined.

Lemma trailing_slash_is_tolerated_witness :
  (∀ pre, "https://h" ≠ pre +:+ "/") ∧
  buildOptions (withBaseUrl tokenCredentials ("https://h" +:+ "/"))
    "GET" "/tickets" ∅ ∅
  = buildOptions (withBaseUrl tokenCredentials "https://h") "GET" "/tickets" ∅ ∅.
Proof.
  split; [exact https_h_has_no_trailing_slash|].
  apply (trailing_slash_is_tolerated tokenCredentials "https://h"
           "GET" "/tickets" ∅ ∅).
  exact https_h_has_no_trailing_slash.
Defined.

Lemma limited_fetch_respects_limit_witness :
  0 < 30 ∧
  zammadApiRequestAllItems (pagedHost tt tokenCredentials threePages)
    "GET" "/tickets" ∅ 30 4 (initial ∅)
    = (Returned (take 30 (concat threePages)),
       (zammadApiRequestAllItems (pagedHost tt tokenCredentials threePages)
          "GET" "/tickets" ∅ 30 4 (initial ∅)).2) ∧
  Z.of_nat (length (take 30 (concat threePages))) ≤ 30.
Proof.
  assert (zammadApiRequestAllItems (pagedHost tt tokenCredentials threePages)
            "GET" "/tickets" ∅ 30 4 (initial ∅)
          = (Returned (take 30 (concat threePages)),
             (zammadApiRequestAllItems (pagedHost tt tokenCredentials threePages)
                "GET" "/tickets" ∅ 30 4 (initial ∅)).2)) as Hrun
    by (vm_compute; reflexivity).
  split; [lia|]. split; [exact Hrun|].
  apply (limited_fetch_respects_limit (pagedHost tt tokenCredentials threePages)
           "GET" "/tickets" ∅ 30 4 (initial ∅) _ _ ltac:(lia) Hrun).
Defined.

Lemma first_page_of_threePages :
  zammadApiRequest (pagedHost tt tokenCredentials threePages) "GET" "/tickets" ∅
    (qsObject (prepared (initial ∅))) (prepared (initial ∅))
  = (Returned (JArr (numbered 0 20)),
     sent (pageRequest tokenCredentials "GET" "/tickets" ∅
             (<["per_page" := JNum 20]> ∅) 1) tt (prepared (initial ∅))).
Proof. vm_compute. reflexivity. Qed.

Lemma negative_limit_cuts_first_page_witness :
  (-5 < 0 ∧ iterate (JArr (numbered 0 20)) = Some (numbered 0 20)) ∧
  zammadApiRequestAllItems (pagedHost tt tokenCredentials threePages)
    "GET" "/tickets" ∅ (-5) 1 (initial ∅)
    = (Returned (take (length (numbered 0 20) - Z.to_nat (- -5)) (numbered 0 20)),
       sent (pageRequest tokenCredentials "GET" "/tickets" ∅
               (<["per_page" := JNum 20]> ∅) 1) tt (prepared (initial ∅))) ∧
  ∃ options,
    trace (sent (pageRequest tokenCredentials "GET" "/tickets" ∅
                   (<["per_page" := JNum 20]> ∅) 1) tt (prepared (initial ∅)))
      = trace (initial ∅) ++ [options].
Proof.
  split; [split; [lia | reflexivity]|].
  apply (negative_limit_cuts_first_page (pagedHost tt tokenCredentials threePages)
           "GET" "/tickets" ∅ (-5) 0 (initial ∅) (JArr (numbered 0 20))
           (numbered 0 20) _ ltac:(lia) first_page_of_threePages).
  reflexivity.
Defined.

Lemma rejected_page_aborts_fetch_witness :
  paginate (rejectingHost "Zammad" tokenCredentials (JObj notAuthorized))
    "GET" "/tickets" ∅ 0 1 (numbered 0 20) (prepared (initial ∅))
  = (Threw (catchHandler "Zammad" (JObj notAuthorized)),
     sent (buildOptions tokenCredentials "GET" "/tickets" ∅
             (qsObject (prepared (initial ∅)))) tt (prepared (initial ∅))).
Proof.
  exact (rejected_page_aborts_fetch
           (rejectingHost "Zammad" tokenCredentials (JObj notAuthorized))
           "GET" "/tickets" ∅ 0 0 (numbered 0 20) (prepared (initial ∅))
           tokenCredentials (JObj notAuthorized) tt eq_refl eq_refl).
Defined.

Lemma non_iterable_response_faults_witness :
  ((∀ xs, JObj notAuthorizedBody ≠ JArr xs) ∧
   (∀ s, JObj notAuthorizedBody ≠ JStr s)) ∧
  paginate (constantHost tt tokenCredentials (JObj notAuthorizedBody))
    "GET" "/tickets" ∅ 0 1 [] (prepared (initial ∅))
  = (Threw TypeError,
     sent (buildOptions tokenCredentials "GET" "/tickets" ∅
             (qsObject (prepared (initial ∅)))) tt (prepared (initial ∅))).
Proof.
  split; [split; discriminate|].
  apply (non_iterable_response_faults
           (constantHost tt tokenCredentials (JObj notAuthorizedBody))
           "GET" "/tickets" ∅ 0 0 [] (prepared (initial ∅))
           (JObj notAuthorizedBody)).
  - vm_compute. reflexivity.
  - discriminate.
  - discriminate.
Defined.

Lemma requests_are_numbered_from_one_witness :
  ∃ n : nat,
    (n ≤ 4)%nat ∧
    trace (zammadApiRequestAllItems (pagedHost tt tokenCredentials threePages)
             "GET" "/tickets" ∅ 10 4 (initial ∅)).2
      = trace (initial ∅) ++
          (pageRequest tokenCredentials "GET" "/tickets" ∅
             (<["per_page" := JNum 20]> (qsObject (initial ∅)))
             <$> seqZ 1 (Z.of_nat n)).
Proof.
  exact (requests_are_numbered_from_one (pagedHost tt tokenCredentials threePages)
           "GET" "/tickets" ∅ 10 4 (initial ∅) tokenCredentials eq_refl).
Defined.

Lemma unlimited_fetch_needs_an_empty_page_witness :
  numbered 0 20 ≠ [] ∧
  (zammadApiRequestAllItems (constantHost tt tokenCredentials (JArr (numbered 0 20)))
     "GET" "/tickets" ∅ 0 7 (initial ∅)).1 = OutOfFuel ∧
  length (trace (zammadApiRequestAllItems
                   (constantHost tt tokenCredentials (JArr (numbered 0 20)))
                   "GET" "/tickets" ∅ 0 7 (initial ∅)).2) = 7%nat.
Proof.
  assert (numbered 0 20 ≠ []) as Hne by (vm_compute; discriminate).
  split; [exact Hne|].
  exact (unlimited_fetch_needs_an_empty_page tt tokenCredentials
           "GET" "/tickets" ∅ ∅ (numbered 0 20) 7 Hne).
Defined.
